(** * Verification of [run.py]: the batch driver and the result store

    The development embeds the functions of [run.py] that carry the
    pipeline's logic -- [read_test_data_iter], [append_to_output_file],
    [process_test_data] and the path construction of [main] -- together
    with the part of Python's [json] module they rely on
    ([json.load], [json.dump(..., indent=4)]).

    Python values that travel through [json] are modelled by the inductive
    type [json]; a Python [str] is a list of Unicode code points. The
    collaborators that are not part of [run.py] (the template engine, the
    extraction helpers, the model and its tokenizer) are the fields of a
    class, and every statement holds for all of them.

    A file is the text Python reads from it. Left out of the model are the
    byte encoding of files, the limits of the interpreter (recursion
    depth, the digit limit of the conversion to [int]), the errors of the
    operating system, the formatting of floats, the clock and what is
    printed. *)

From Stdlib Require Import ZArith NArith Lia Ascii String.
From Stdlib Require Import Decimal DecimalFacts DecimalPos DecimalZ.
From stdpp Require Import base option list gmap.

Local Open Scope N_scope.

(** ** Text *)

(** A Python [str]: a sequence of code points. *)
Abbreviation char := N (only parsing).
Abbreviation text := (list N) (only parsing).

(** Converts a Rocq string literal to text. *)
Definition str (s : string) : text := map N_of_ascii (list_ascii_of_string s).

Definition QUOTE : char := 34.       (* the double quote *)
Definition BACKSLASH : char := 92.
Definition SLASH : char := 47.
Definition SPACE : char := 32.
Definition TAB : char := 9.
Definition LF : char := 10.
Definition CR : char := 13.
Definition BS : char := 8.
Definition FF : char := 12.
Definition COMMA : char := 44.
Definition COLON : char := 58.
Definition LBRACKET : char := 91.
Definition RBRACKET : char := 93.
Definition LBRACE : char := 123.
Definition RBRACE : char := 125.
Definition MINUS : char := 45.
Definition PLUS : char := 43.
Definition DOT : char := 46.

(** ** Python exceptions *)

Inductive exn :=
| JSONDecodeError
| KeyError (key : text)
| TypeError
| FileNotFoundError
| OtherError (tag : text).

Inductive Result (A : Type) :=
| Ok (a : A)
| Raise (e : exn).
Arguments Ok {A} a.
Arguments Raise {A} e.

(** ** JSON-like Python values *)

(** [JFloat lit] is the float denoted by the literal [lit]; floats are
    identified by the literal they were read from. *)
#[warnings="-register-all"]
Inductive json :=
| JNull
| JBool (b : bool)
| JInt (z : Z)
| JFloat (lit : text)
| JStr (s : text)
| JArr (items : list json)
| JObj (members : list (text * json)).

(** Induction over values, through the lists of arrays and objects. *)
Section JsonInd.
Variable P : json -> Prop.
Hypothesis Hnull : P JNull.
Hypothesis Hbool : forall b, P (JBool b).
Hypothesis Hint : forall z, P (JInt z).
Hypothesis Hfloat : forall l, P (JFloat l).
Hypothesis Hstr : forall s, P (JStr s).
Hypothesis Harr : forall l, Forall P l -> P (JArr l).
Hypothesis Hobj : forall l, Forall (fun kv => P (snd kv)) l -> P (JObj l).

Fixpoint json_nested_ind (v : json) : P v :=
  match v with
  | JNull => Hnull
  | JBool b => Hbool b
  | JInt z => Hint z
  | JFloat l => Hfloat l
  | JStr s => Hstr s
  | JArr l =>
      Harr l ((fix go (l : list json) : Forall P l :=
                 match l with
                 | [] => @List.Forall_nil _ P
                 | x :: l' => @List.Forall_cons _ P x l' (json_nested_ind x) (go l')
                 end) l)
  | JObj l =>
      Hobj l ((fix go (l : list (text * json)) : Forall (fun kv => P (snd kv)) l :=
                 match l with
                 | [] => @List.Forall_nil _ _
                 | kv :: l' =>
                     @List.Forall_cons _ (fun kv => P (snd kv)) kv l'
                                       (json_nested_ind (snd kv)) (go l')
                 end) l)
  end.
End JsonInd.

(** ** Strings: [py_encode_basestring_ascii] and [py_scanstring] *)

Definition hexdigit (d : N) : char := if d <? 10 then 48 + d else 87 + d.

(** ['{0:04x}'.format(n)] for [n < 0x10000]. *)
Definition hex4 (n : N) : text :=
  [hexdigit ((n / 16 / 16 / 16) mod 16); hexdigit ((n / 16 / 16) mod 16);
   hexdigit ((n / 16) mod 16); hexdigit (n mod 16)].

(** A backslash, the letter u (117) and four hexadecimal digits. *)
Definition u_escape (n : N) : text := BACKSLASH :: 117 :: hex4 n.

(** The replacement of one character matched by [ESCAPE_ASCII]. *)
Definition escape_char (c : char) : text :=
  if c =? QUOTE then [BACKSLASH; QUOTE]
  else if c =? BACKSLASH then [BACKSLASH; BACKSLASH]
  else if c =? LF then [BACKSLASH; 110]              (* \n *)
  else if c =? CR then [BACKSLASH; 114]              (* \r *)
  else if c =? TAB then [BACKSLASH; 116]             (* \t *)
  else if c =? FF then [BACKSLASH; 102]              (* \f *)
  else if c =? BS then [BACKSLASH; 98]               (* \b *)
  else if (SPACE <=? c) && (c <=? 126) then [c]
  else if c <? 65536 then u_escape c
  else
    let n := c - 65536 in
    u_escape (N.lor 55296 (N.land (N.shiftr n 10) 1023))
      ++ u_escape (N.lor 56320 (N.land n 1023)).

Definition encode_basestring_ascii (s : text) : text :=
  QUOTE :: flat_map escape_char s ++ [QUOTE].

Definition hexval (c : char) : option N :=
  if (48 <=? c) && (c <=? 57) then Some (c - 48)
  else if (97 <=? c) && (c <=? 102) then Some (c - 87)
  else if (65 <=? c) && (c <=? 70) then Some (c - 55)
  else None.

(** [_decode_uXXXX]: the value of the four hexadecimal digits after a
    [\u]; [None] when one of them is not a hexadecimal digit. *)
Definition decode_uXXXX (a b c d : char) : option N :=
  match hexval a, hexval b, hexval c, hexval d with
  | Some x, Some y, Some z, Some w => Some (((x * 16 + y) * 16 + z) * 16 + w)
  | _, _, _, _ => None
  end.

(** The [BACKSLASH] table of the decoder. *)
Definition simple_escape (e : char) : option char :=
  if e =? QUOTE then Some QUOTE
  else if e =? BACKSLASH then Some BACKSLASH
  else if e =? SLASH then Some SLASH
  else if e =? 98 then Some BS                 (* b *)
  else if e =? 102 then Some FF                (* f *)
  else if e =? 110 then Some LF                (* n *)
  else if e =? 114 then Some CR                (* r *)
  else if e =? 116 then Some TAB               (* t *)
  else None.

Definition is_high_surrogate (u : N) : bool := (55296 <=? u) && (u <=? 56319).
Definition is_low_surrogate (u : N) : bool := (56320 <=? u) && (u <=? 57343).

(** Puts a decoded character in front of the rest of a scanned string. *)
Definition scan_cons (c : char) (r : option (text * text)) : option (text * text) :=
  match r with
  | Some (cs, rest) => Some (c :: cs, rest)
  | None => None
  end.

(** [py_scanstring] with [strict=True], started just after the opening
    quote; [None] stands for [JSONDecodeError]. *)
Fixpoint scanstring (s : text) : option (text * text) :=
  match s with
  | [] => None
  | c :: s1 =>
      if c =? QUOTE then Some ([], s1)
      else if c =? BACKSLASH then
        match s1 with
        | [] => None
        | e :: s2 =>
            if e =? 117 then
              match s2 with
              | h1 :: h2 :: h3 :: h4 :: s3 =>
                  match decode_uXXXX h1 h2 h3 h4 with
                  | None => None
                  | Some uni =>
                      let plain := scan_cons uni (scanstring s3) in
                      if is_high_surrogate uni then
                        match s3 with
                        | b :: u :: s3' =>
                            if (b =? BACKSLASH) && (u =? 117) then
                              match s3' with
                              | g1 :: g2 :: g3 :: g4 :: s4 =>
                                  match decode_uXXXX g1 g2 g3 g4 with
                                  | None => None
                                  | Some uni2 =>
                                      if is_low_surrogate uni2 then
                                        scan_cons
                                          (65536 + N.lor (N.shiftl (uni - 55296) 10)
                                                         (uni2 - 56320))
                                          (scanstring s4)
                                      else plain
                                  end
                              | _ => None
                              end
                            else plain
                        | _ => plain
                        end
                      else plain
                  end
              | _ => None
              end
            else
              match simple_escape e with
              | None => None
              | Some c' => scan_cons c' (scanstring s2)
              end
        end
      else if c <? SPACE then None
      else scan_cons c (scanstring s1)
  end.

(** *** Strings that survive a round trip

    The decoder joins an escaped high surrogate and an escaped low
    surrogate that follows it into one code point. A string comes back
    unchanged as long as its code points are in range and it holds no
    high surrogate immediately followed by a low one. *)
Fixpoint str_ok (s : text) : bool :=
  match s with
  | [] => true
  | c :: s' =>
      (c <? 1114112)
      && negb (is_high_surrogate c
               && match s' with c' :: _ => is_low_surrogate c' | [] => false end)
      && str_ok s'
  end.

(** What the decoder's look-ahead finds at [t]: no [\u] escape of a low
    surrogate, and no malformed [\u] escape. *)
Definition no_low_follows (t : text) : bool :=
  match t with
  | b :: u :: t' =>
      if (b =? BACKSLASH) && (u =? 117) then
        match t' with
        | g1 :: g2 :: g3 :: g4 :: _ =>
            match decode_uXXXX g1 g2 g3 g4 with
            | Some uni2 => negb (is_low_surrogate uni2)
            | None => false
            end
        | _ => false
        end
      else true
  | _ => true
  end.

(** ** Numbers *)

Fixpoint uint_digits (d : uint) : text :=
  match d with
  | Nil => []
  | D0 d => 48 :: uint_digits d
  | D1 d => 49 :: uint_digits d
  | D2 d => 50 :: uint_digits d
  | D3 d => 51 :: uint_digits d
  | D4 d => 52 :: uint_digits d
  | D5 d => 53 :: uint_digits d
  | D6 d => 54 :: uint_digits d
  | D7 d => 55 :: uint_digits d
  | D8 d => 56 :: uint_digits d
  | D9 d => 57 :: uint_digits d
  end.

(** [int.__repr__]: the decimal digits, with a minus sign when negative. *)
Definition intstr (z : Z) : text :=
  match Z.to_int z with
  | Pos d => uint_digits d
  | Neg d => MINUS :: uint_digits d
  end.

Definition is_digit (c : char) : bool := (48 <=? c) && (c <=? 57).

(** The longest run of digits at the start of [s], and what follows it. *)
Fixpoint span_digits (s : text) : text * text :=
  match s with
  | c :: s' =>
      if is_digit c then let (ds, rest) := span_digits s' in (c :: ds, rest)
      else ([], s)
  | [] => ([], [])
  end.

Fixpoint digits_uint (ds : text) : uint :=
  match ds with
  | [] => Nil
  | c :: ds' =>
      let d := digits_uint ds' in
      if c =? 48 then D0 d else if c =? 49 then D1 d else if c =? 50 then D2 d
      else if c =? 51 then D3 d else if c =? 52 then D4 d else if c =? 53 then D5 d
      else if c =? 54 then D6 d else if c =? 55 then D7 d else if c =? 56 then D8 d
      else D9 d
  end.

(** [int(lit)] for a literal that matched the integer part of [NUMBER_RE]. *)
Definition int_of_literal (lit : text) : Z :=
  match lit with
  | c :: ds => if c =? MINUS then Z.of_int (Neg (digits_uint ds))
               else Z.of_int (Pos (digits_uint lit))
  | [] => 0%Z
  end.

(** The groups of [NUMBER_RE]: an integer part (an optional minus sign,
    then a single 0 or a digit 1-9 followed by digits), an optional
    fraction (a dot and at least one digit) and an optional exponent (e or
    E, an optional sign, at least one digit). Each matcher returns the
    matched literal and the rest of the input. *)
Definition match_natural (s : text) : option (text * text) :=
  match s with
  | c :: s' =>
      if c =? 48 then Some ([48], s')
      else if is_digit c then let (ds, rest) := span_digits s' in Some (c :: ds, rest)
      else None
  | [] => None
  end.

Definition match_integer (s : text) : option (text * text) :=
  match s with
  | c :: s' =>
      if c =? MINUS then
        match match_natural s' with
        | Some (lit, rest) => Some (MINUS :: lit, rest)
        | None => None
        end
      else match_natural s
  | [] => None
  end.

Definition match_frac (s : text) : option (text * text) :=
  match s with
  | c :: s' =>
      if c =? DOT then
        match span_digits s' with
        | ([], _) => None
        | (ds, rest) => Some (DOT :: ds, rest)
        end
      else None
  | [] => None
  end.

Definition match_exp (s : text) : option (text * text) :=
  match s with
  | e :: s' =>
      if (e =? 101) || (e =? 69) then
        match s' with
        | sg :: s'' =>
            if (sg =? MINUS) || (sg =? PLUS) then
              match span_digits s'' with
              | ([], _) => None
              | (ds, rest) => Some (e :: sg :: ds, rest)
              end
            else
              match span_digits s' with
              | ([], _) => None
              | (ds, rest) => Some (e :: ds, rest)
              end
        | [] => None
        end
      else None
  | [] => None
  end.

(** [match_number] and the conversion the scanner applies to its groups:
    an [int] when there is neither fraction nor exponent, a [float]
    otherwise. *)
Definition match_number (s : text) : option (json * text) :=
  match match_integer s with
  | None => None
  | Some (integer, s1) =>
      match match_frac s1 with
      | Some (frac, s2) =>
          match match_exp s2 with
          | Some (exp, s3) => Some (JFloat (integer ++ frac ++ exp), s3)
          | None => Some (JFloat (integer ++ frac), s2)
          end
      | None =>
          match match_exp s1 with
          | Some (exp, s3) => Some (JFloat (integer ++ exp), s3)
          | None => Some (JInt (int_of_literal integer), s1)
          end
      end
  end.

(** ** Decoding: [json.load] *)

(** [WHITESPACE]: space, tab, line feed, carriage return. *)
Definition is_ws (c : char) : bool :=
  (c =? SPACE) || (c =? TAB) || (c =? LF) || (c =? CR).

Fixpoint skip_ws (s : text) : text :=
  match s with
  | c :: s' => if is_ws c then skip_ws s' else s
  | [] => []
  end.

(** [s.startswith(p)]: the rest of [s] after the prefix [p]. *)
Fixpoint strip_prefix (p s : text) : option text :=
  match p, s with
  | [], _ => Some s
  | a :: p', b :: s' => if a =? b then strip_prefix p' s' else None
  | _ :: _, [] => None
  end.

(** [d[k] = v] on a dict kept in insertion order. *)
Fixpoint dict_set (k : text) (v : json) (d : list (text * json)) : list (text * json) :=
  match d with
  | [] => [(k, v)]
  | (k', v') :: d' =>
      if decide (k = k') then (k, v) :: d' else (k', v') :: dict_set k v d'
  end.

(** [dict(pairs)]. *)
Definition dict_of_pairs (pairs : list (text * json)) : list (text * json) :=
  fold_left (fun d kv => dict_set (fst kv) (snd kv) d) pairs [].

(** The constants tried after [match_number] fails. *)
Definition scan_constant (s : text) : option (json * text) :=
  match strip_prefix (str "NaN") s with
  | Some rest => Some (JFloat (str "NaN"), rest)
  | None =>
      match strip_prefix (str "Infinity") s with
      | Some rest => Some (JFloat (str "Infinity"), rest)
      | None =>
          match strip_prefix (str "-Infinity") s with
          | Some rest => Some (JFloat (str "-Infinity"), rest)
          | None => None
          end
      end
  end.

(** The last cases of [scan_once]: the literals [null], [true], [false],
    then a number, then the float constants. *)
Definition scan_scalar (s : text) : option (json * text) :=
  match strip_prefix (str "null") s with
  | Some rest => Some (JNull, rest)
  | None =>
      match strip_prefix (str "true") s with
      | Some rest => Some (JBool true, rest)
      | None =>
          match strip_prefix (str "false") s with
          | Some rest => Some (JBool false, rest)
          | None =>
              match match_number s with
              | Some r => Some r
              | None => scan_constant s
              end
          end
      end
  end.

(** [scan_once], [JSONArray] and [JSONObject]. The recursion of the
    decoder is bounded by [fuel]; [None] stands for [JSONDecodeError]
    (or the [StopIteration] the callers turn into it).
    [array_items] starts at the first character of an element,
    [object_items] just after the opening quote of a key. *)
Fixpoint scan_once (fuel : nat) (s : text) {struct fuel} : option (json * text) :=
  match fuel with
  | O => None
  | S fuel' =>
      match s with
      | [] => None
      | c :: s1 =>
          if c =? QUOTE then
            match scanstring s1 with
            | Some (cs, rest) => Some (JStr cs, rest)
            | None => None
            end
          else if c =? LBRACE then
            match skip_ws s1 with
            | c2 :: s2 =>
                if c2 =? RBRACE then Some (JObj [], s2)
                else if c2 =? QUOTE then
                  match object_items fuel' s2 with
                  | Some (pairs, rest) => Some (JObj (dict_of_pairs pairs), rest)
                  | None => None
                  end
                else None
            | [] => None
            end
          else if c =? LBRACKET then
            match skip_ws s1 with
            | c2 :: s2 =>
                if c2 =? RBRACKET then Some (JArr [], s2)
                else
                  match array_items fuel' (c2 :: s2) with
                  | Some (vs, rest) => Some (JArr vs, rest)
                  | None => None
                  end
            | [] => None
            end
          else scan_scalar s
      end
  end
with array_items (fuel : nat) (s : text) {struct fuel} : option (list json * text) :=
  match fuel with
  | O => None
  | S fuel' =>
      match scan_once fuel' s with
      | None => None
      | Some (v, s1) =>
          match skip_ws s1 with
          | c :: s2 =>
              if c =? RBRACKET then Some ([v], s2)
              else if c =? COMMA then
                match array_items fuel' (skip_ws s2) with
                | Some (vs, rest) => Some (v :: vs, rest)
                | None => None
                end
              else None
          | [] => None
          end
      end
  end
with object_items (fuel : nat) (s : text) {struct fuel}
  : option (list (text * json) * text) :=
  match fuel with
  | O => None
  | S fuel' =>
      match scanstring s with
      | None => None
      | Some (key, s1) =>
          match skip_ws s1 with
          | c :: s2 =>
              if c =? COLON then
                match scan_once fuel' (skip_ws s2) with
                | None => None
                | Some (v, s3) =>
                    match skip_ws s3 with
                    | c3 :: s4 =>
                        if c3 =? RBRACE then Some ([(key, v)], s4)
                        else if c3 =? COMMA then
                          match skip_ws s4 with
                          | q :: s5 =>
                              if q =? QUOTE then
                                match object_items fuel' s5 with
                                | Some (ps, rest) => Some ((key, v) :: ps, rest)
                                | None => None
                                end
                              else None
                          | [] => None
                          end
                        else None
                    | [] => None
                    end
                end
              else None
          | [] => None
          end
      end
  end.

(** [s.startswith('\ufeff')]. *)
Definition starts_with_bom (s : text) : bool :=
  match s with
  | c :: _ => c =? 65279
  | [] => false
  end.

(** [json.loads]: a leading byte-order mark is refused, white space may
    surround the document, anything else after it is "Extra data". Nesting
    never exceeds the length of the text, which bounds the recursion. *)
Definition json_loads (s : text) : Result json :=
  if starts_with_bom s then Raise JSONDecodeError
  else
    match scan_once (S (length s)) (skip_ws s) with
    | None => Raise JSONDecodeError
    | Some (v, rest) =>
        match skip_ws rest with
        | [] => Ok v
        | _ :: _ => Raise JSONDecodeError
        end
    end.

(** ** Encoding: [json.dump(obj, f, indent=4)] *)

(** [float.__repr__] of the float a literal denotes: the shortest decimal
    that reads back as the same binary64 number. It is left abstract. *)
Class FloatFormat := float_repr : text -> text.

(** ['\n' + ' ' * (4 * level)]. *)
Definition newline_indent (level : nat) : text := LF :: repeat SPACE (4 * level).

(** The chunks of the items, the separator in front of all but the first. *)
Fixpoint join (sep : text) (chunks : list text) : text :=
  match chunks with
  | [] => []
  | c :: cs => c ++ match cs with [] => [] | _ :: _ => sep ++ join sep cs end
  end.

(** [_iterencode] at nesting level [level], its chunks concatenated. *)
Fixpoint iterencode `{FloatFormat} (level : nat) (v : json) : text :=
  match v with
  | JNull => str "null"
  | JBool true => str "true"
  | JBool false => str "false"
  | JInt z => intstr z
  | JFloat lit => float_repr lit
  | JStr s => encode_basestring_ascii s
  | JArr [] => str "[]"
  | JArr items =>
      LBRACKET :: newline_indent (S level)
        ++ join (COMMA :: newline_indent (S level)) (map (iterencode (S level)) items)
        ++ newline_indent level ++ [RBRACKET]
  | JObj [] => str "{}"
  | JObj members =>
      LBRACE :: newline_indent (S level)
        ++ join (COMMA :: newline_indent (S level))
             (map (fun kv => encode_basestring_ascii (fst kv) ++ COLON :: SPACE
                               :: iterencode (S level) (snd kv)) members)
        ++ newline_indent level ++ [RBRACE]
  end.

Definition json_dumps `{FloatFormat} (v : json) : text := iterencode 0 v.

(** ** Python operations on JSON-like values *)

(** Sequencing of steps that may raise. *)
#[global] Instance Result_ret : MRet Result := fun A a => Ok a.

#[global] Instance Result_bind : MBind Result := fun A B k r =>
  match r with
  | Ok a => k a
  | Raise e => Raise e
  end.

Definition dict_get (k : text) (d : list (text * json)) : option json :=
  snd <$> find (fun kv => bool_decide (fst kv = k)) d.

(** [v[k]] for a string key: [KeyError] on a dict without the key,
    [TypeError] on anything that is not a dict. *)
Definition py_getitem (v : json) (k : text) : Result json :=
  match v with
  | JObj d =>
      match dict_get k d with
      | Some x => Ok x
      | None => Raise (KeyError k)
      end
  | _ => Raise TypeError
  end.

(** What [for item in v] iterates over: the elements of a list, the keys
    of a dict, the characters of a string; [TypeError] otherwise. *)
Definition py_iter (v : json) : Result (list json) :=
  match v with
  | JArr items => Ok items
  | JObj d => Ok (map (fun kv => JStr (fst kv)) d)
  | JStr s => Ok (map (fun c => JStr [c]) s)
  | _ => Raise TypeError
  end.

(** ** File objects *)

(** An open text file: its content and the position of the next read or
    write. Positions count characters; every file the program writes is
    ASCII ([ensure_ascii]), one byte per character. *)
Record FileObject := mkFile { content : text; pos : nat }.

(** [f.read()]: everything from the position to the end. *)
Definition f_read (f : FileObject) : text * FileObject :=
  (drop (pos f) (content f), mkFile (content f) (length (content f))).

Definition f_seek (p : nat) (f : FileObject) : FileObject := mkFile (content f) p.

(** [f.write(data)]: the characters at the position are replaced, the file
    grows when the data runs past its end; nothing is cut off. *)
Definition f_write (data : text) (f : FileObject) : FileObject :=
  mkFile (take (pos f) (content f) ++ data ++ drop (pos f + length data) (content f))
         (pos f + length data).

(** [json.load(f)]. *)
Definition json_load (f : FileObject) : Result json * FileObject :=
  let (s, f') := f_read f in (json_loads s, f').

(** [json.dump(obj, f, indent=4)]. *)
Definition json_dump `{FloatFormat} (obj : json) (f : FileObject) : FileObject :=
  f_write (json_dumps obj) f.

(** ** [append_to_output_file] *)

(** The body of [with open(output_file, 'r+') as f]: the data that is
    written and the file object when the block is left. *)
Definition append_existing `{FloatFormat} (data : json) (f : FileObject)
  : Result unit * FileObject :=
  let (loaded, f1) := json_load f in
  let existing :=
    match loaded with
    | Ok (JArr items) => Ok items
    | Ok other => Ok [other]                 (* not a list: wrapped *)
    | Raise JSONDecodeError => Ok []         (* except json.JSONDecodeError *)
    | Raise e => Raise e
    end in
  match existing with
  | Raise e => (Raise e, f1)
  | Ok existing_data =>
      let existing_data := existing_data ++ [data] in
      let f2 := f_seek 0 f1 in
      (Ok tt, json_dump (JArr existing_data) f2)
  end.

(** The data [append_to_output_file] takes over from an existing file. *)
Definition existing_data (old : text) : list json :=
  match json_loads old with
  | Ok (JArr items) => items
  | Ok other => [other]
  | Raise _ => []
  end.

(** The file system: path to content. *)
Abbreviation FS := (gmap text text) (only parsing).

(** [append_to_output_file(output_file, data)] on the file system. *)
Definition append_to_output_file `{FloatFormat}
    (output_file : text) (data : json) (fs : FS) : Result unit * FS :=
  match fs !! output_file with
  | Some old =>                              (* os.path.exists(output_file) *)
      let (r, f) := append_existing data (mkFile old 0) in
      (r, <[output_file := content f]> fs)
  | None =>                                  (* open(output_file, 'w') *)
      let f := json_dump (JArr [data]) (mkFile [] 0) in
      (Ok tt, <[output_file := content f]> fs)
  end.

(** A sequence of calls, one after the other, as long as none raises. *)
Fixpoint append_all `{FloatFormat}
    (output_file : text) (records : list json) (fs : FS) : Result unit * FS :=
  match records with
  | [] => (Ok tt, fs)
  | r :: rs =>
      match append_to_output_file output_file r fs with
      | (Ok _, fs') => append_all output_file rs fs'
      | (Raise e, fs') => (Raise e, fs')
      end
  end.

(** ** The world the program runs in *)

(** The missing collaborators of [run.py]: the template engine
    ([PromptFramwork]), the extraction helpers ([utils.utils]) and the
    model with its tokenizer ([transformers]). The prompt builder and the
    extractors are functions that may raise; the model carries a state (its
    sampler) from one call to the next. *)
Class Collaborators := {
  Backend : Type;
  Tokens : Type;
  (** [tokenizer(prompt, return_tensors="pt").to(device)] *)
  tokenizer_call : text -> Result Tokens;
  (** [model.generate] on the inputs with [max_length=512], the three
      sampling parameters and [num_return_sequences=1]: the first sequence *)
  model_generate : Backend -> Tokens -> json -> json -> json -> Result Tokens * Backend;
  (** [tokenizer.decode(output[0], skip_special_tokens=True)] *)
  tokenizer_decode : Tokens -> Result text;
  (** [pf.producePrompt(template, question_data[, extra])] *)
  producePrompt : json -> json -> option json -> Result text;
  (** [format_rationale_output(r, format)] *)
  format_rationale_output : text -> json -> Result json;
  (** [format_distractor_output(d)] *)
  format_distractor_output : text -> Result json
}.

(** The state a run reads and writes: the file system, the progress bar
    of [tqdm] (its counter [n] and its [total]), the model, and the log of
    the prompts handed to [get_local_response], oldest first. The log is
    not in the program; it records the calls the program makes. *)
Record World `{Collaborators} := mkWorld {
  files : gmap text text;
  pbar_n : nat;
  pbar_total : nat;
  backend : Backend;
  calls : list text
}.

(** Computations that read and write the world and may raise. *)
Definition M `{Collaborators} (A : Type) : Type := World -> Result A * World.

#[global] Instance M_ret `{Collaborators} : MRet M := fun A a w => (Ok a, w).

#[global] Instance M_bind `{Collaborators} : MBind M := fun A B k m w =>
  match m w with
  | (Ok a, w') => k a w'
  | (Raise e, w') => (Raise e, w')
  end.

(** A pure step that may raise. *)
Definition lift `{Collaborators} {A} (r : Result A) : M A := fun w => (r, w).

(** [try: body finally: handler]: the handler always runs; its own
    exception, if any, replaces the outcome of the body. *)
Definition try_finally `{Collaborators} {A} (body : M A) (handler : M unit) : M A :=
  fun w =>
    let (r, w1) := body w in
    match handler w1 with
    | (Ok _, w2) => (r, w2)
    | (Raise e, w2) => (Raise e, w2)
    end.

(** A step on the file system, run in the world. *)
Definition on_files `{Collaborators} {A} (op : FS -> Result A * FS) : M A :=
  fun w =>
    let (r, fs) := op (files w) in
    (r, mkWorld _ fs (pbar_n w) (pbar_total w) (backend w) (calls w)).

(** ** [read_test_data_iter] *)

(** What a generator produces: items one at a time, then either the end
    or an exception. *)
Inductive gen (A : Type) :=
| GNil
| GCons (a : A) (rest : gen A)
| GRaise (e : exn).
Arguments GNil {A}.
Arguments GCons {A} a rest.
Arguments GRaise {A} e.

(** The loop [for item in test_data: yield {...}]; the three subscripts
    are evaluated in the order of the dict display. *)
Fixpoint yield_records (items : list json) : gen json :=
  match items with
  | [] => GNil
  | item :: rest =>
      match py_getitem item (str "question") with
      | Raise e => GRaise e
      | Ok q =>
          match py_getitem item (str "correct_answer") with
          | Raise e => GRaise e
          | Ok a =>
              match py_getitem item (str "support") with
              | Raise e => GRaise e
              | Ok s =>
                  GCons (JObj [(str "question", q); (str "correct_answer", a);
                               (str "support", s)])
                        (yield_records rest)
              end
          end
      end
  end.

(** The generator started on the file system [fs]: the file is opened and
    loaded when the first item is asked for. *)
Definition read_test_data_iter (fs : FS) (test_file : text)
  : gen json :=
  match fs !! test_file with
  | None => GRaise FileNotFoundError
  | Some s =>
      match json_loads s with
      | Raise e => GRaise e
      | Ok test_data =>
          match py_iter test_data with
          | Raise e => GRaise e
          | Ok items => yield_records items
          end
      end
  end.

(** [sum(1 for _ in g)]. *)
Fixpoint gen_count {A} (g : gen A) : Result nat :=
  match g with
  | GNil => Ok 0%nat
  | GCons _ rest =>
      match gen_count rest with
      | Ok n => Ok (S n)
      | Raise e => Raise e
      end
  | GRaise e => Raise e
  end.

(** The items a generator yields before it ends or raises. *)
Fixpoint gen_items {A} (g : gen A) : list A :=
  match g with
  | GCons a rest => a :: gen_items rest
  | _ => []
  end.

(** ** [get_local_response] and [process_test_data] *)

Definition log_call `{Collaborators} (prompt : text) : M unit :=
  fun w => (Ok tt, mkWorld _ (files w) (pbar_n w) (pbar_total w) (backend w)
                           (calls w ++ [prompt])).

Definition run_model `{Collaborators} (inputs : Tokens) (temperature top_p presence_penalty : json)
  : M Tokens :=
  fun w =>
    let (r, b) := model_generate (backend w) inputs temperature top_p presence_penalty in
    (r, mkWorld _ (files w) (pbar_n w) (pbar_total w) b (calls w)).

Definition get_local_response `{Collaborators}
    (prompt : text) (temperature top_p presence_penalty : json) : M text :=
  log_call prompt;;
  inputs ← lift (tokenizer_call prompt);
  output ← run_model inputs temperature top_p presence_penalty;
  lift (tokenizer_decode output).

(** [pbar.update(1)]. *)
Definition pbar_update `{Collaborators} (k : nat) : M unit :=
  fun w => (Ok tt, mkWorld _ (files w) (pbar_n w + k) (pbar_total w) (backend w) (calls w)).

(** [tqdm(total=total_items, ...)]: a fresh bar. *)
Definition tqdm `{Collaborators} (total : nat) : M unit :=
  fun w => (Ok tt, mkWorld _ (files w) 0 total (backend w) (calls w)).

(** The configuration [process_test_data] receives. *)
Record Config := mkConfig {
  test_file : text;
  output_file : text;
  prompt_config : json;
  distractor_principle : json;
  temperature : json;
  top_p : json;
  presence_penalty : json
}.

(** The record built from the question and the extracted distractors. *)
Definition build_result (question_data extracted_distractors : json) : Result json :=
  q ← py_getitem question_data (str "question");
  a ← py_getitem question_data (str "correct_answer");
  d1 ← py_getitem extracted_distractors (str "distractor1");
  d2 ← py_getitem extracted_distractors (str "distractor2");
  d3 ← py_getitem extracted_distractors (str "distractor3");
  Ok (JObj [(str "question", q); (str "correct_answer", a);
            (str "distractor1", d1); (str "distractor2", d2);
            (str "distractor3", d3)]).

(** The [try] block of the loop body. The [print] of the extracted
    distractors is left out. *)
Definition item_body `{FloatFormat} `{Collaborators} (cfg : Config) (question_data : json)
  : M unit :=
  rg_template ← lift (py_getitem (prompt_config cfg) (str "rg"));
  rg_prompt ← lift (producePrompt rg_template question_data
                                   (Some (distractor_principle cfg)));
  r ← get_local_response rg_prompt (temperature cfg) (top_p cfg) (presence_penalty cfg);
  format ← lift (py_getitem (prompt_config cfg) (str "format"));
  inference ← lift (format_rationale_output r format);
  dg_template ← lift (py_getitem (prompt_config cfg) (str "dg"));
  dg_prompt ← lift (producePrompt dg_template question_data None);
  d ← get_local_response dg_prompt (temperature cfg) (top_p cfg) (presence_penalty cfg);
  extracted_distractors ← lift (format_distractor_output d);
  result ← lift (build_result question_data extracted_distractors);
  on_files (append_to_output_file (output_file cfg) result).

(** One turn of the loop: [try: ... finally: pbar.update(1)]. *)
Definition process_item `{FloatFormat} `{Collaborators} (cfg : Config) (question_data : json)
  : M unit :=
  try_finally (item_body cfg question_data) (pbar_update 1).

(** [for question_data in g: ...]: an exception of the generator or of a
    turn leaves the loop. *)
Fixpoint for_each `{Collaborators} (g : gen json) (turn : json -> M unit) : M unit :=
  match g with
  | GNil => mret tt
  | GRaise e => lift (Raise e)
  | GCons x rest => turn x;; for_each rest turn
  end.

(** The file system as it is when a file is opened. *)
Definition current_files `{Collaborators} : M (gmap text text) :=
  fun w => (Ok (files w), w).

(** The pre-scan counts the items of a first generator; the loop runs a
    second one, which opens the file again when its first item is asked
    for. The clock and the closing [print]s are left out. *)
Definition process_test_data `{FloatFormat} `{Collaborators} (cfg : Config) : M unit :=
  fs ← current_files;
  total_items ← lift (gen_count (read_test_data_iter fs (test_file cfg)));
  tqdm total_items;;
  fs' ← current_files;
  for_each (read_test_data_iter fs' (test_file cfg)) (process_item cfg).

(** ** The output path of [main] *)

(** The choices of the [-m] and [-p] options. *)
Inductive model_choice := plus | qwen7b.
Inductive prompt_choice := rule | cot | non.

Definition model_name (m : model_choice) : text :=
  match m with plus => str "plus" | qwen7b => str "qwen7b" end.

Definition prompt_name (p : prompt_choice) : text :=
  match p with rule => str "rule" | cot => str "cot" | non => str "non" end.

(** A formatted string literal: literal text and replacement fields, the
    fields already formatted ([format] of a [str] is the [str]). *)
Inductive fpart :=
| FLit (s : text)
| FField (value : text).

Definition fstring (parts : list fpart) : text :=
  concat (map (fun p => match p with FLit s => s | FField v => v end) parts).

(** [f"{file_config['output_file']}-{args.model}-{args.prompt}.json"]. *)
Definition output_file_path (base : text) (m : model_choice) (p : prompt_choice)
  : text :=
  fstring [FField base; FLit (str "-"); FField (model_name m); FLit (str "-");
           FField (prompt_name p); FLit (str ".json")].

(** ** Values that survive a round trip through the file *)

(** No float (their formatting is abstract), strings and keys that
    satisfy [str_ok], and no key twice in a dict, as in every Python
    dict. *)
Fixpoint json_ok (v : json) : bool :=
  match v with
  | JNull | JBool _ | JInt _ => true
  | JFloat _ => false
  | JStr s => str_ok s
  | JArr items => forallb json_ok items
  | JObj members =>
      forallb (fun kv => str_ok (fst kv) && json_ok (snd kv)) members
      && bool_decide (NoDup (map fst members))
  end.

(** A bound on the recursion the decoder needs to read a value back. *)
Fixpoint json_size (v : json) : nat :=
  match v with
  | JArr items => S (foldr (fun x n => S (json_size x) + n)%nat 0%nat items)
  | JObj members => S (foldr (fun kv n => S (json_size (snd kv)) + n)%nat 0%nat members)
  | _ => 1%nat
  end.

(** What follows an encoded value in the output of the encoder: the end
    of the text, a comma or a line feed. *)
Definition delimited (rest : text) : bool :=
  match rest with
  | [] => true
  | c :: _ => (c =? COMMA) || (c =? LF)
  end.

(** The first character of an encoded value: neither white space nor a
    closing bracket or brace, and not the byte-order mark. *)
Definition starts_value (s : text) : bool :=
  match s with
  | [] => false
  | c :: _ =>
      negb (is_ws c) && negb (c =? RBRACKET) && negb (c =? RBRACE) && negb (c =? 65279)
  end.

(** The chunk of one member of a dict. *)
Definition encode_member `{FloatFormat} (level : nat) (kv : text * json) : text :=
  encode_basestring_ascii (fst kv) ++ COLON :: SPACE :: iterencode level (snd kv).

(** What the induction on values proves: a value is read back from its
    encoding at any nesting level, whatever delimited text follows. *)
Definition reads_back `{FloatFormat} (v : json) : Prop :=
  json_ok v = true ->
  forall level rest fuel,
    delimited rest = true -> (json_size v <= fuel)%nat ->
    scan_once fuel (iterencode level v ++ rest) = Some (v, rest).

(** A float format to run examples with: the literal as it was read. The
    examples hold no float. *)
Definition literal_format : FloatFormat := fun lit => lit.

(** ** The prompts of the two stages *)

(** The prompt of the rationale stage, from the configuration and the
    question record. *)
Definition rg_prompt_of `{Collaborators} (cfg : Config) (question_data : json)
  : Result text :=
  rg_template ← py_getitem (prompt_config cfg) (str "rg");
  producePrompt rg_template question_data (Some (distractor_principle cfg)).

(** The prompt of the distractor stage, from the configuration and the
    question record. *)
Definition dg_prompt_of `{Collaborators} (cfg : Config) (question_data : json)
  : Result text :=
  dg_template ← py_getitem (prompt_config cfg) (str "dg");
  producePrompt dg_template question_data None.

(** ** Dataset entries and question records *)

(** What a question record is to a dataset entry: the dict of the three
    fields of the entry, in the order [question], [correct_answer],
    [support]. *)
Definition record_of_entry (item record : json) : Prop :=
  exists q a s,
    py_getitem item (str "question") = Ok q
    /\ py_getitem item (str "correct_answer") = Ok a
    /\ py_getitem item (str "support") = Ok s
    /\ record = JObj [(str "question", q); (str "correct_answer", a); (str "support", s)].

Definition has_question_fields (item : json) : Prop :=
  exists q a s,
    py_getitem item (str "question") = Ok q
    /\ py_getitem item (str "correct_answer") = Ok a
    /\ py_getitem item (str "support") = Ok s.

(** ** The distractor extraction *)

(** Modelled from the spec: the lines of the raw text that
    [format_distractor_output] of [utils/utils.py] scans; the function is
    not among the source files. *)
Fixpoint split_lines (s : text) : list text :=
  match s with
  | [] => [[]]
  | c :: s' =>
      if c =? LF then [] :: split_lines s'
      else
        match split_lines s' with
        | l :: ls => (c :: l) :: ls
        | [] => [[c]]
        end
  end.

(** Modelled from the spec: [s.strip()], the white space around a
    candidate does not count. *)
Definition strip (s : text) : text := rev (skip_ws (rev (skip_ws s))).

(** Modelled from the spec: one enumerated item, numbered or bulleted, in
    the three styles the spec names -- ["1. X"], ["- X"] and ["(1) X"] --
    with any white space around; the result is [X]. The parentheses are
    the characters 40 and 41. *)
Definition enumerated_item (line : text) : option text :=
  match skip_ws line with
  | c :: rest =>
      if c =? MINUS then Some (strip rest)
      else if c =? 40 then
        match span_digits rest with
        | (_ :: _, c2 :: rest') => if c2 =? 41 then Some (strip rest') else None
        | _ => None
        end
      else if is_digit c then
        match span_digits rest with
        | (_, c2 :: rest') => if c2 =? DOT then Some (strip rest') else None
        | _ => None
        end
      else None
  | [] => None
  end.

(** Modelled from the spec: the candidates found in the raw text, in
    textual order. *)
Definition distractor_candidates (raw : text) : list text :=
  omap enumerated_item (split_lines raw).

(** Modelled from the spec: [format_distractor_output] ([extractDistractors]
    in the spec), missing from the source files. It "scans for three
    enumerated items (numbered or bulleted); if fewer than three are found,
    missing slots are set to empty string"; "if more than three candidates
    are found, the first three in textual order win". It never raises. *)
Definition extractDistractors (raw : text) : Result json :=
  let found := distractor_candidates raw in
  Ok (JObj [(str "distractor1", JStr (nth 0 found []));
            (str "distractor2", JStr (nth 1 found []));
            (str "distractor3", JStr (nth 2 found []))]).

(** ** Stand-ins to run the program on concrete inputs *)

(** What the stand-in model answers: two enumerated candidates, the second
    one marked with the number of answers the model has left. *)
Definition canned_answer (left : nat) : text :=
  str "1. Mie scattering" ++ [LF] ++ str "2. Ozone layer " ++ intstr (Z.of_nat left).

(** Stand-ins for the collaborators. The state of the model is the number
    of calls it still answers; after that it raises. The prompt builder
    puts the template name in front of the question; the extraction is the
    one modelled from the spec. *)
Definition canned : Collaborators := {|
  Backend := nat;
  Tokens := text;
  tokenizer_call prompt := Ok prompt;
  model_generate left inputs _ _ _ :=
    match left with
    | O => (Raise (OtherError (str "backend down")), O)
    | S left' => (Ok (canned_answer left'), left')
    end;
  tokenizer_decode output := Ok output;
  producePrompt template question_data extra :=
    match template, py_getitem question_data (str "question") with
    | JStr t, Ok (JStr q) => Ok (t ++ str ": " ++ q)
    | _, Raise e => Raise e
    | _, _ => Raise TypeError
    end;
  format_rationale_output r format := Ok (JStr r);
  format_distractor_output d := extractDistractors d
|}.

Definition out_json : text := str "out-plus-rule.json".
Definition test_json : text := str "test.json".

Definition record_one : json :=
  JObj [(str "question", JStr (str "Why is sky blue?"));
        (str "correct_answer", JStr (str "Rayleigh scattering"));
        (str "distractor1", JStr (str "Reflection of the sea"));
        (str "distractor2", JStr (str "Ozone"));
        (str "distractor3", JStr [])].

Definition record_two : json :=
  JObj [(str "question", JStr (str "What is 2 + 2?"));
        (str "correct_answer", JStr (str "4"));
        (str "distractor1", JStr (str "3"));
        (str "distractor2", JStr (str "5"));
        (str "distractor3", JStr (str "22"))].

Definition question_one : json :=
  JObj [(str "question", JStr (str "Why is sky blue?"));
        (str "correct_answer", JStr (str "Rayleigh scattering"));
        (str "support", JStr (str "..."))].

Definition question_two : json :=
  JObj [(str "question", JStr (str "What is 2 + 2?"));
        (str "correct_answer", JStr (str "4"));
        (str "support", JStr (str "Arithmetic"));
        (str "source", JStr (str "primer"))].

(** The dataset file of the examples, as [json.dump] writes it. *)
Definition dataset_text : text :=
  json_dumps (H := literal_format) (JArr [question_one; question_two]).

Definition example_config : Config :=
  mkConfig test_json out_json
           (JObj [(str "rg", JStr (str "rg-rule")); (str "dg", JStr (str "dg-rule"));
                  (str "format", JStr (str "plain"))])
           (JStr (str "Distractors must be plausible."))
           (JInt 1) (JInt 1) (JInt 0).

(** A world with the dataset, no output file, and a model that answers
    [left] calls. *)
Definition example_world (left : nat) : @World canned :=
  mkWorld canned {[test_json := dataset_text]} 0 0 left [].

(** ** Notions for the properties of whole runs *)

(** Text that is white space only, the empty text included. *)
Definition blank (s : text) : bool :=
  match skip_ws s with
  | [] => true
  | _ :: _ => false
  end.

(** What a result record is to a question record: it repeats its
    [question] and its [correct_answer] and has the three distractor
    fields. *)
Definition result_of_question (question_data result : json) : Prop :=
  exists question answer d1 d2 d3,
    py_getitem question_data (str "question") = Ok question
    /\ py_getitem question_data (str "correct_answer") = Ok answer
    /\ result = JObj [(str "question", question); (str "correct_answer", answer);
                      (str "distractor1", d1); (str "distractor2", d2);
                      (str "distractor3", d3)].

(** The two prompts of a question: the rationale prompt and the
    distractor prompt. *)
Definition prompts_of_question `{Collaborators} (cfg : Config)
    (question_data : json) (prompts : text * text) : Prop :=
  rg_prompt_of cfg question_data = Ok (fst prompts)
  /\ dg_prompt_of cfg question_data = Ok (snd prompts).


(** An output file that is blank: two spaces and a line feed. *)
Definition blank_text : text := [SPACE; SPACE; LF].

(** A dataset entry without its [correct_answer]. *)
Definition fields_without_answer : list (text * json) :=
  [(str "question", JStr (str "What is left out?"));
   (str "support", JStr (str "..."))].

Definition question_without_answer : json := JObj fields_without_answer.

(** A dataset whose second entry lacks a field. *)
Definition broken_dataset_text : text :=
  json_dumps (H := literal_format) (JArr [question_one; question_without_answer]).

(** A world with the broken dataset, and a world with no dataset. *)
Definition broken_world : @World canned :=
  mkWorld canned {[test_json := broken_dataset_text]} 0 0 4%nat [].

Definition bare_world : @World canned := mkWorld canned ∅ 0 0 4%nat [].

(** A configuration without the template of the rationale stage. *)
Definition config_without_rg : Config :=
  mkConfig test_json out_json
           (JObj [(str "dg", JStr (str "dg-rule")); (str "format", JStr (str "plain"))])
           (JStr (str "Distractors must be plausible."))
           (JInt 1) (JInt 1) (JInt 0).

(** * Proofs *)

Local Arguments N.eqb : simpl never.
Local Arguments N.leb : simpl never.
Local Arguments N.ltb : simpl never.
Local Arguments N.add : simpl never.
Local Arguments N.sub : simpl never.
Local Arguments N.mul : simpl never.
Local Arguments N.div : simpl never.
Local Arguments N.modulo : simpl never.
Local Arguments N.lor : simpl never.
Local Arguments N.land : simpl never.
Local Arguments N.shiftl : simpl never.
Local Arguments N.shiftr : simpl never.

(** Case analysis on every comparison of the goal. *)
Ltac case_cmp :=
  repeat match goal with
    | |- context [N.eqb ?a ?b] => destruct (N.eqb_spec a b)
    | |- context [N.leb ?a ?b] => destruct (N.leb_spec a b)
    | |- context [N.ltb ?a ?b] => destruct (N.ltb_spec a b)
    end.

(** Linear arithmetic with division and remainder by constants. *)
Ltac ndiv := zify; Z.to_euclidean_division_equations; lia.

(** ** Strings survive encoding and scanning *)

Lemma hexval_hexdigit d : d < 16 -> hexval (hexdigit d) = Some d.
Proof.
  intros Hd. unfold hexval, hexdigit.
  case_cmp; simpl; try lia; f_equal; lia.
Qed.

Lemma decode_hex4 n :
  n < 65536 ->
  decode_uXXXX (hexdigit ((n / 16 / 16 / 16) mod 16)) (hexdigit ((n / 16 / 16) mod 16))
               (hexdigit ((n / 16) mod 16)) (hexdigit (n mod 16)) = Some n.
Proof.
  intros Hn. unfold decode_uXXXX.
  rewrite !hexval_hexdigit by ndiv. f_equal. ndiv.
Qed.

Lemma lor_disjoint_add a b : b < 1024 -> N.lor (a * 1024) b = a * 1024 + b.
Proof.
  intros Hb.
  assert (Hl : N.land (a * 1024) b = 0).
  { apply N.bits_inj. intros i. rewrite N.land_spec, N.bits_0.
    destruct (N.lt_ge_cases i 10) as [Hi | Hi].
    - change 1024 with (2 ^ 10). now rewrite N.mul_pow2_bits_low.
    - rewrite <- (N.mod_small b (2 ^ 10)) by exact Hb.
      rewrite N.mod_pow2_bits_high by exact Hi. apply andb_false_r. }
  now rewrite <- N.lxor_lor, N.add_nocarry_lxor.
Qed.

Lemma surrogate_high n :
  n < 1048576 -> N.lor 55296 (N.land (N.shiftr n 10) 1023) = 55296 + n / 1024.
Proof.
  intros Hn. rewrite N.shiftr_div_pow2. change 1023 with (N.ones 10).
  rewrite N.land_ones. change (2 ^ 10) with 1024.
  rewrite N.mod_small by ndiv.
  change 55296 with (54 * 1024). apply lor_disjoint_add. ndiv.
Qed.

Lemma surrogate_low n : N.lor 56320 (N.land n 1023) = 56320 + n mod 1024.
Proof.
  change 1023 with (N.ones 10). rewrite N.land_ones. change (2 ^ 10) with 1024.
  change 56320 with (55 * 1024). apply lor_disjoint_add. ndiv.
Qed.

Lemma surrogate_join n :
  n < 1048576 ->
  65536 + N.lor (N.shiftl (55296 + n / 1024 - 55296) 10) (56320 + n mod 1024 - 56320)
  = 65536 + n.
Proof.
  intros Hn. rewrite N.shiftl_mul_pow2. change (2 ^ 10) with 1024.
  set (q := n / 1024). set (r := n mod 1024).
  replace (55296 + q - 55296) with q by lia.
  replace (56320 + r - 56320) with r by lia.
  rewrite lor_disjoint_add by (subst r; ndiv). subst q r. ndiv.
Qed.

Lemma scan_u_escape n t :
  n < 65536 ->
  (is_high_surrogate n = true -> no_low_follows t = true) ->
  scanstring (u_escape n ++ t) = scan_cons n (scanstring t).
Proof.
  intros Hn Hla. unfold u_escape, hex4. simpl.
  rewrite decode_hex4 by exact Hn.
  destruct (is_high_surrogate n) eqn:Hh; [|reflexivity].
  specialize (Hla eq_refl). unfold no_low_follows in Hla.
  destruct t as [|b [|u t']]; try reflexivity.
  destruct ((b =? BACKSLASH) && (u =? 117)); [|reflexivity].
  destruct t' as [|g1 [|g2 [|g3 [|g4 s4]]]]; try discriminate.
  destruct (decode_uXXXX g1 g2 g3 g4) as [uni2|]; [|discriminate].
  apply negb_true_iff in Hla. now rewrite Hla.
Qed.

Lemma scan_surrogate_pair n t :
  n < 1048576 ->
  scanstring (u_escape (N.lor 55296 (N.land (N.shiftr n 10) 1023))
                ++ u_escape (N.lor 56320 (N.land n 1023)) ++ t)
  = scan_cons (65536 + n) (scanstring t).
Proof.
  intros Hn. rewrite surrogate_high by exact Hn. rewrite surrogate_low.
  set (hi := 55296 + n / 1024). set (lo := 56320 + n mod 1024).
  assert (Hhi : hi < 65536) by (subst hi; ndiv).
  assert (Hlo : lo < 65536) by (subst lo; ndiv).
  unfold u_escape at 1, hex4. simpl.
  rewrite decode_hex4 by exact Hhi.
  replace (is_high_surrogate hi) with true
    by (unfold is_high_surrogate; subst hi; case_cmp; try reflexivity; ndiv).
  unfold u_escape, hex4. simpl.
  rewrite decode_hex4 by exact Hlo.
  replace (is_low_surrogate lo) with true
    by (unfold is_low_surrogate; subst lo; case_cmp; try reflexivity; ndiv).
  subst hi lo. rewrite surrogate_join by exact Hn. reflexivity.
Qed.

Lemma scan_escape_char c t :
  c < 1114112 ->
  (is_high_surrogate c = true -> no_low_follows t = true) ->
  scanstring (escape_char c ++ t) = scan_cons c (scanstring t).
Proof.
  intros Hc Hla. unfold escape_char.
  destruct (N.eqb_spec c QUOTE) as [->|Hq]; [reflexivity|].
  destruct (N.eqb_spec c BACKSLASH) as [->|Hb]; [reflexivity|].
  destruct (N.eqb_spec c LF) as [->|Hlf]; [reflexivity|].
  destruct (N.eqb_spec c CR) as [->|Hcr]; [reflexivity|].
  destruct (N.eqb_spec c TAB) as [->|Htab]; [reflexivity|].
  destruct (N.eqb_spec c FF) as [->|Hff]; [reflexivity|].
  destruct (N.eqb_spec c BS) as [->|Hbs]; [reflexivity|].
  destruct ((SPACE <=? c) && (c <=? 126)) eqn:Hprint.
  - apply andb_true_iff in Hprint as [Hlo Hhi].
    apply N.leb_le in Hlo. simpl.
    destruct (N.eqb_spec c QUOTE); [contradiction|].
    destruct (N.eqb_spec c BACKSLASH); [contradiction|].
    destruct (N.ltb_spec c SPACE); [lia|]. reflexivity.
  - destruct (N.ltb_spec c 65536) as [Hs|Hs].
    + now apply scan_u_escape.
    + cbv zeta. rewrite <- app_assoc.
      rewrite scan_surrogate_pair by lia.
      now replace (65536 + (c - 65536)) with c by lia.
Qed.

Lemma no_low_follows_escape c t :
  c < 1114112 -> is_low_surrogate c = false ->
  no_low_follows (escape_char c ++ t) = true.
Proof.
  intros Hc Hlow. unfold escape_char.
  destruct (N.eqb_spec c QUOTE) as [->|Hq]; [reflexivity|].
  destruct (N.eqb_spec c BACKSLASH) as [->|Hb]; [reflexivity|].
  destruct (N.eqb_spec c LF) as [->|Hlf]; [reflexivity|].
  destruct (N.eqb_spec c CR) as [->|Hcr]; [reflexivity|].
  destruct (N.eqb_spec c TAB) as [->|Htab]; [reflexivity|].
  destruct (N.eqb_spec c FF) as [->|Hff]; [reflexivity|].
  destruct (N.eqb_spec c BS) as [->|Hbs]; [reflexivity|].
  destruct ((SPACE <=? c) && (c <=? 126)) eqn:Hprint.
  - simpl. destruct t as [|u t']; [reflexivity|].
    unfold no_low_follows.
    destruct (N.eqb_spec c BACKSLASH); [contradiction|]. reflexivity.
  - destruct (N.ltb_spec c 65536) as [Hs|Hs].
    + unfold u_escape, hex4, no_low_follows. simpl.
      rewrite decode_hex4 by exact Hs. now rewrite Hlow.
    + cbv zeta. rewrite surrogate_high by lia.
      set (hi := 55296 + (c - 65536) / 1024).
      assert (Hhi : hi < 65536) by (subst hi; ndiv).
      unfold u_escape at 1, hex4, no_low_follows. simpl.
      rewrite decode_hex4 by exact Hhi.
      unfold is_low_surrogate. subst hi. case_cmp; try reflexivity. ndiv.
Qed.

Lemma scanstring_escaped s rest :
  str_ok s = true ->
  scanstring (flat_map escape_char s ++ QUOTE :: rest) = Some (s, rest).
Proof.
  induction s as [|c s IH]; intros Hok.
  - reflexivity.
  - simpl in Hok. apply andb_true_iff in Hok as [Hok Hs].
    apply andb_true_iff in Hok as [Hc Hpair].
    apply N.ltb_lt in Hc. apply negb_true_iff in Hpair.
    simpl. rewrite <- app_assoc.
    rewrite scan_escape_char; [now rewrite IH| exact Hc |].
    intros Hh. rewrite Hh in Hpair. simpl in Hpair.
    destruct s as [|c' s'].
    + simpl. now destruct rest.
    + simpl. rewrite <- app_assoc. simpl in Hs.
      apply andb_true_iff in Hs as [Hs _]. apply andb_true_iff in Hs as [Hc' _].
      apply N.ltb_lt in Hc'. now apply no_low_follows_escape.
Qed.

Lemma scanstring_encode s rest :
  str_ok s = true ->
  match encode_basestring_ascii s ++ rest with
  | q :: t => q = QUOTE /\ scanstring t = Some (s, rest)
  | [] => False
  end.
Proof.
  intros Hok. unfold encode_basestring_ascii. simpl. split; [reflexivity|].
  rewrite <- app_assoc. now apply scanstring_escaped.
Qed.

(** ** Integers survive printing and matching *)

Lemma span_digits_uint d rest :
  match rest with [] => True | c :: _ => is_digit c = false end ->
  span_digits (uint_digits d ++ rest) = (uint_digits d, rest).
Proof.
  intros Hrest. induction d; simpl; try (rewrite IHd; reflexivity).
  destruct rest as [|c rest]; [reflexivity|]. simpl. now rewrite Hrest.
Qed.

Lemma digits_uint_digits d : digits_uint (uint_digits d) = d.
Proof. induction d; simpl; try rewrite IHd; reflexivity. Qed.

Lemma to_uint_leading p d : Pos.to_uint p <> D0 d.
Proof.
  intros Heq.
  assert (Hn : unorm (Pos.to_uint p) = Pos.to_uint p).
  { rewrite <- (DecimalPos.Unsigned.to_of (Pos.to_uint p)).
    now rewrite DecimalPos.Unsigned.of_to. }
  rewrite Heq, unorm_D0 in Hn. unfold unorm in Hn.
  pose proof (nzhead_nonzero d) as Hnz.
  destruct (nzhead d) eqn:Hd; try discriminate.
  - injection Hn as <-. now apply (Unsigned.to_uint_nonzero p).
  - now apply (Hnz u).
Qed.

Lemma match_natural_uint p rest :
  match rest with [] => True | c :: _ => is_digit c = false end ->
  match_natural (uint_digits (Pos.to_uint p) ++ rest)
  = Some (uint_digits (Pos.to_uint p), rest).
Proof.
  intros Hrest. pose proof (to_uint_leading p) as Hlead.
  pose proof (Unsigned.to_uint_nonnil p) as Hnil.
  destruct (Pos.to_uint p) as [|d|d|d|d|d|d|d|d|d|d]; try contradiction;
    try (now exfalso; apply (Hlead d));
    simpl; unfold match_natural; simpl;
    rewrite span_digits_uint by exact Hrest; reflexivity.
Qed.

Lemma delimited_not_digit rest :
  delimited rest = true -> match rest with [] => True | c :: _ => is_digit c = false end.
Proof.
  destruct rest as [|c rest]; [easy|]. unfold delimited, is_digit.
  intros H. apply orb_true_iff in H as [H|H]; apply N.eqb_eq in H; now subst.
Qed.

Lemma delimited_no_frac rest : delimited rest = true -> match_frac rest = None.
Proof.
  destruct rest as [|c rest]; [easy|]. unfold delimited, match_frac.
  intros H. apply orb_true_iff in H as [H|H]; apply N.eqb_eq in H; now subst.
Qed.

Lemma delimited_no_exp rest : delimited rest = true -> match_exp rest = None.
Proof.
  destruct rest as [|c rest]; [easy|]. unfold delimited, match_exp.
  intros H. apply orb_true_iff in H as [H|H]; apply N.eqb_eq in H; now subst.
Qed.

Lemma uint_digits_head d :
  d <> Nil ->
  match uint_digits d with
  | c :: _ => is_digit c = true
  | [] => False
  end.
Proof. destruct d; simpl; easy. Qed.

Lemma match_number_intstr z rest :
  delimited rest = true ->
  match_number (intstr z ++ rest) = Some (JInt z, rest).
Proof.
  intros Hd. pose proof (delimited_not_digit rest Hd) as Hnd.
  unfold match_number, intstr.
  destruct z as [|p|p]; simpl.
  - unfold match_integer, match_natural. simpl.
    now rewrite delimited_no_frac, delimited_no_exp.
  - pose proof (uint_digits_head _ (Unsigned.to_uint_nonnil p)) as Hhead.
    pose proof (match_natural_uint p rest Hnd) as Hnat.
    unfold match_integer.
    destruct (uint_digits (Pos.to_uint p)) as [|c ds] eqn:Hds; [contradiction|].
    simpl in *. unfold is_digit in Hhead.
    destruct (N.eqb_spec c MINUS) as [->|_]; [discriminate|].
    rewrite Hnat, delimited_no_frac, delimited_no_exp by exact Hd.
    do 3 f_equal. unfold int_of_literal.
    destruct (N.eqb_spec c MINUS) as [->|_]; [discriminate|].
    rewrite <- Hds, digits_uint_digits.
    exact (DecimalZ.of_to (Z.pos p)).
  - unfold match_integer. simpl.
    rewrite (match_natural_uint p rest Hnd).
    rewrite delimited_no_frac, delimited_no_exp by exact Hd.
    do 3 f_equal. unfold int_of_literal. simpl.
    rewrite digits_uint_digits. exact (DecimalZ.of_to (Z.neg p)).
Qed.

(** ** Values survive encoding and decoding *)

Lemma skip_ws_spaces n t : skip_ws (repeat SPACE n ++ t) = skip_ws t.
Proof. induction n; simpl; [reflexivity | exact IHn]. Qed.

Lemma skip_ws_newline_indent level t : skip_ws (newline_indent level ++ t) = skip_ws t.
Proof. unfold newline_indent. simpl. apply skip_ws_spaces. Qed.

Lemma skip_ws_starts t : starts_value t = true -> skip_ws t = t.
Proof.
  destruct t as [|c t]; [discriminate|]. simpl. intros H.
  apply andb_true_iff in H as [H _].
  apply andb_true_iff in H as [H _]. apply andb_true_iff in H as [H _].
  apply negb_true_iff in H. now rewrite H.
Qed.

Lemma starts_value_app s t : starts_value s = true -> starts_value (s ++ t) = true.
Proof. now destruct s. Qed.

Lemma intstr_head z :
  match intstr z with
  | c :: _ => is_digit c || (c =? MINUS) = true
  | [] => False
  end.
Proof.
  unfold intstr. destruct z as [|p|p]; simpl; try reflexivity.
  pose proof (uint_digits_head _ (Unsigned.to_uint_nonnil p)) as Hh.
  destruct (uint_digits (Pos.to_uint p)); [contradiction|]. now rewrite Hh.
Qed.

Lemma number_head_cases c :
  is_digit c || (c =? MINUS) = true -> c = 45 \/ 48 <= c <= 57.
Proof.
  unfold is_digit, MINUS. case_cmp; simpl; intros; try discriminate; lia.
Qed.

Lemma number_head_starts c t :
  is_digit c || (c =? MINUS) = true -> starts_value (c :: t) = true.
Proof.
  intros H. apply number_head_cases in H.
  unfold starts_value, is_ws, SPACE, TAB, LF, CR, RBRACKET, RBRACE.
  case_cmp; simpl; try reflexivity; lia.
Qed.

Lemma scan_once_number fuel c t :
  is_digit c || (c =? MINUS) = true ->
  scan_once (S fuel) (c :: t)
  = match match_number (c :: t) with
    | Some r => Some r
    | None => scan_constant (c :: t)
    end.
Proof.
  intros H. apply number_head_cases in H.
  cbn [scan_once]. unfold scan_scalar.
  cbn [strip_prefix str map list_ascii_of_string].
  unfold QUOTE, LBRACE, LBRACKET. simpl N_of_ascii.
  case_cmp; try lia; reflexivity.
Qed.

Section RoundTrip.
Context `{FloatFormat}.

Lemma iterencode_starts v level :
  json_ok v = true -> starts_value (iterencode level v) = true.
Proof.
  destruct v as [| [|] | z | l | s | [|x l] | [|kv l]]; try reflexivity; try discriminate.
  intros _. simpl. pose proof (intstr_head z) as Hh.
  destruct (intstr z) as [|c t]; [contradiction|]. now apply number_head_starts.
Qed.

Lemma join_starts sep (chunks : list (list N)) :
  match chunks with c :: _ => starts_value c = true | [] => False end ->
  starts_value (join sep chunks) = true.
Proof.
  destruct chunks as [|c cs]; [easy|]. simpl. apply starts_value_app.
Qed.

Lemma join_cons sep (c : list N) cs :
  cs <> [] -> join sep (c :: cs) = c ++ sep ++ join sep cs.
Proof. now destruct cs. Qed.

Lemma join_one sep (c : list N) : join sep [c] = c.
Proof. simpl. apply app_nil_r. Qed.

Lemma array_items_step fuel s :
  array_items (S fuel) s
  = match scan_once fuel s with
    | None => None
    | Some (v, s1) =>
        match skip_ws s1 with
        | c :: s2 =>
            if c =? RBRACKET then Some ([v], s2)
            else if c =? COMMA then
              match array_items fuel (skip_ws s2) with
              | Some (vs, rest) => Some (v :: vs, rest)
              | None => None
              end
            else None
        | [] => None
        end
    end.
Proof. reflexivity. Qed.

Lemma array_items_encoded level items rest :
  items <> [] ->
  Forall reads_back items ->
  forallb json_ok items = true ->
  forall fuel,
    (foldr (fun x n => S (json_size x) + n)%nat 0%nat items <= fuel)%nat ->
    array_items fuel
      (join (COMMA :: newline_indent (S level)) (map (iterencode (S level)) items)
         ++ newline_indent level ++ RBRACKET :: rest)
    = Some (items, rest).
Proof.
  intros Hne Hall. induction Hall as [|x xs Hx Hxs IH]; [contradiction|].
  intros Hok fuel Hfuel. simpl in Hok. apply andb_true_iff in Hok as [Hokx Hokxs].
  cbn [foldr] in Hfuel. destruct fuel as [|fuel]; [lia|].
  rewrite array_items_step.
  destruct xs as [|y ys].
  - simpl map. rewrite join_one.
    rewrite (Hx Hokx (S level) _ fuel) by (reflexivity || lia).
    rewrite skip_ws_newline_indent. reflexivity.
  - rewrite map_cons, join_cons by easy. rewrite <- !app_assoc.
    rewrite (Hx Hokx (S level) _ fuel) by (reflexivity || lia).
    rewrite <- app_comm_cons.
    change (skip_ws (COMMA :: ?t)) with (COMMA :: t).
    change (COMMA =? RBRACKET) with false. change (COMMA =? COMMA) with true.
    cbv iota. rewrite skip_ws_newline_indent.
    rewrite skip_ws_starts.
    + rewrite (IH ltac:(easy) Hokxs fuel) by lia. reflexivity.
    + apply starts_value_app. apply join_starts. simpl.
      simpl in Hokxs. apply andb_true_iff in Hokxs as [Hy _].
      now apply iterencode_starts.
Qed.
Lemma object_items_step fuel s :
  object_items (S fuel) s
  = match scanstring s with
    | None => None
    | Some (key, s1) =>
        match skip_ws s1 with
        | c :: s2 =>
            if c =? COLON then
              match scan_once fuel (skip_ws s2) with
              | None => None
              | Some (v, s3) =>
                  match skip_ws s3 with
                  | c3 :: s4 =>
                      if c3 =? RBRACE then Some ([(key, v)], s4)
                      else if c3 =? COMMA then
                        match skip_ws s4 with
                        | q :: s5 =>
                            if q =? QUOTE then
                              match object_items fuel s5 with
                              | Some (ps, rest) => Some ((key, v) :: ps, rest)
                              | None => None
                              end
                            else None
                        | [] => None
                        end
                      else None
                  | [] => None
                  end
              end
            else None
        | [] => None
        end
    end.
Proof. reflexivity. Qed.

Lemma object_items_encoded level members rest :
  members <> [] ->
  Forall (fun kv => reads_back (snd kv)) members ->
  forallb (fun kv => str_ok (fst kv) && json_ok (snd kv)) members = true ->
  forall fuel,
    (foldr (fun kv n => S (json_size (snd kv)) + n)%nat 0%nat members <= fuel)%nat ->
    exists t,
      join (COMMA :: newline_indent (S level)) (map (encode_member (S level)) members)
        ++ newline_indent level ++ RBRACE :: rest = QUOTE :: t
      /\ object_items fuel t = Some (members, rest).
Proof.
  intros Hne Hall. induction Hall as [|[k v] ms Hv Hms IH]; [contradiction|].
  intros Hok fuel Hfuel. cbn [forallb fst snd] in Hok.
  apply andb_true_iff in Hok as [Hokkv Hokms].
  apply andb_true_iff in Hokkv as [Hokk Hokv].
  cbn [foldr snd] in Hfuel. destruct fuel as [|fuel]; [lia|].
  unfold reads_back in Hv. cbn [snd] in Hv.
  destruct ms as [|m ms].
  - simpl map. rewrite join_one. unfold encode_member, encode_basestring_ascii.
    cbn [fst snd]. eexists. split.
    { rewrite <- !app_assoc, <- !app_comm_cons. reflexivity. }
    rewrite object_items_step. rewrite <- app_assoc. cbn [app].
    rewrite scanstring_escaped by exact Hokk.
    cbn [app]. change (skip_ws (COLON :: ?t)) with (COLON :: t).
    change (COLON =? COLON) with true. cbv iota.
    change (skip_ws (SPACE :: ?t)) with (skip_ws t).
    rewrite skip_ws_starts by (apply starts_value_app; now apply iterencode_starts).
    rewrite (Hv Hokv (S level) _ fuel) by (reflexivity || lia).
    rewrite skip_ws_newline_indent. reflexivity.
  - rewrite map_cons, join_cons by easy.
    destruct (IH ltac:(easy) Hokms fuel ltac:(lia)) as (t' & Ht' & Hitems).
    unfold encode_member at 1, encode_basestring_ascii. cbn [fst snd].
    eexists. split.
    { rewrite <- !app_assoc, <- !app_comm_cons. reflexivity. }
    rewrite object_items_step. rewrite <- !app_assoc. cbn [app].
    rewrite scanstring_escaped by exact Hokk.
    cbn [app]. change (skip_ws (COLON :: ?t)) with (COLON :: t).
    change (COLON =? COLON) with true. cbv iota.
    change (skip_ws (SPACE :: ?t)) with (skip_ws t).
    rewrite skip_ws_starts by (apply starts_value_app; now apply iterencode_starts).
    rewrite (Hv Hokv (S level) _ fuel) by (reflexivity || lia).
    change (skip_ws (COMMA :: ?t)) with (COMMA :: t).
    change (COMMA =? RBRACE) with false. change (COMMA =? COMMA) with true.
    cbv iota. rewrite skip_ws_newline_indent.
    rewrite Ht'.
    change (skip_ws (QUOTE :: ?t)) with (QUOTE :: t).
    change (QUOTE =? QUOTE) with true. cbv iota.
    now rewrite Hitems.
Qed.

Lemma scan_once_array fuel t' t :
  skip_ws t' = t -> starts_value t = true ->
  scan_once (S fuel) (LBRACKET :: t')
  = match array_items fuel t with
    | Some (vs, rest) => Some (JArr vs, rest)
    | None => None
    end.
Proof.
  intros Hskip Hstart. cbn [scan_once].
  change (LBRACKET =? QUOTE) with false. change (LBRACKET =? LBRACE) with false.
  change (LBRACKET =? LBRACKET) with true. cbv iota. rewrite Hskip.
  destruct t as [|c2 s2]; [discriminate|].
  unfold starts_value in Hstart.
  apply andb_true_iff in Hstart as [Hstart _].
  apply andb_true_iff in Hstart as [Hstart _].
  apply andb_true_iff in Hstart as [_ Hbr].
  apply negb_true_iff in Hbr. now rewrite Hbr.
Qed.

Lemma scan_once_object fuel t' t :
  skip_ws t' = QUOTE :: t ->
  scan_once (S fuel) (LBRACE :: t')
  = match object_items fuel t with
    | Some (pairs, rest) => Some (JObj (dict_of_pairs pairs), rest)
    | None => None
    end.
Proof.
  intros Hskip. cbn [scan_once].
  change (LBRACE =? QUOTE) with false. change (LBRACE =? LBRACE) with true.
  cbv iota. now rewrite Hskip.
Qed.

Lemma dict_set_fresh k v d :
  k ∉ map fst d -> dict_set k v d = d ++ [(k, v)].
Proof.
  induction d as [|[k' v'] d IH]; intros Hk; [reflexivity|].
  simpl in *. apply not_elem_of_cons in Hk as [Hne Hk].
  destruct (decide (k = k')); [contradiction|]. now rewrite IH.
Qed.

Lemma dict_of_pairs_from acc pairs :
  NoDup (map fst (acc ++ pairs)) ->
  fold_left (fun d kv => dict_set (fst kv) (snd kv) d) pairs acc = acc ++ pairs.
Proof.
  revert acc. induction pairs as [|[k v] pairs IH]; intros acc Hnd.
  - now rewrite app_nil_r.
  - simpl. rewrite dict_set_fresh.
    + rewrite IH; rewrite <- app_assoc; [reflexivity | exact Hnd].
    + rewrite map_app in Hnd. apply NoDup_app in Hnd as (_ & Hdis & _).
      intros Hin. apply (Hdis k Hin). simpl. left.
Qed.

Lemma dict_of_pairs_nodup pairs :
  NoDup (map fst pairs) -> dict_of_pairs pairs = pairs.
Proof. intros Hnd. unfold dict_of_pairs. now rewrite dict_of_pairs_from. Qed.

Lemma iterencode_reads_back v : reads_back v.
Proof.
  induction v as [| b | z | l | s | items IH | members IH] using json_nested_ind;
    intros Hok level rest fuel Hd Hfuel;
    (destruct fuel as [|fuel]; [simpl in Hfuel; lia|]).
  - reflexivity.
  - now destruct b.
  - pose proof (intstr_head z) as Hh. cbn [iterencode].
    destruct (intstr z) as [|c t] eqn:Hz; [contradiction|].
    rewrite <- app_comm_cons, scan_once_number by exact Hh.
    rewrite app_comm_cons, <- Hz. now rewrite match_number_intstr.
  - discriminate.
  - cbn [iterencode json_ok] in *. unfold encode_basestring_ascii.
    rewrite <- app_comm_cons, <- app_assoc. cbn [scan_once app].
    change (QUOTE =? QUOTE) with true. cbv iota.
    now rewrite scanstring_escaped.
  - destruct items as [|x items]; [reflexivity|].
    cbn [json_ok] in Hok. cbn [json_size] in Hfuel.
    cbn [iterencode]. rewrite <- app_comm_cons, <- !app_assoc.
    assert (Hstart :
      starts_value
        (join (COMMA :: newline_indent (S level))
              (map (iterencode (S level)) (x :: items))
           ++ newline_indent level ++ [RBRACKET] ++ rest) = true).
    { apply starts_value_app, join_starts. simpl. apply iterencode_starts.
      simpl in Hok. now apply andb_true_iff in Hok as [Hx _]. }
    erewrite scan_once_array;
      [| rewrite skip_ws_newline_indent; apply skip_ws_starts, Hstart | exact Hstart].
    cbn [app]. rewrite array_items_encoded; try easy. lia.
  - destruct members as [|kv members]; [reflexivity|].
    cbn [json_ok] in Hok. apply andb_true_iff in Hok as [Hok Hnd].
    apply bool_decide_eq_true in Hnd. cbn [json_size] in Hfuel.
    cbn [iterencode]. rewrite <- app_comm_cons, <- !app_assoc.
    change (map _ (kv :: members)) with (map (encode_member (S level)) (kv :: members)).
    destruct (object_items_encoded level (kv :: members) rest ltac:(easy) IH Hok fuel
                ltac:(lia)) as (t & Ht & Hitems).
    cbn [app]. erewrite scan_once_object;
      [| rewrite skip_ws_newline_indent, Ht; reflexivity].
    rewrite Hitems. now rewrite dict_of_pairs_nodup.
Qed.

Lemma starts_value_no_bom s : starts_value s = true -> starts_with_bom s = false.
Proof.
  destruct s as [|c s]; [discriminate|]. simpl. intros Hs.
  apply andb_true_iff in Hs as [_ Hs]. now apply negb_true_iff in Hs.
Qed.

End RoundTrip.

(** ** The decoder consumes its input, and its fuel is enough *)

Lemma skip_ws_length s : (length (skip_ws s) <= length s)%nat.
Proof.
  induction s as [|c s IH]; simpl; [lia|].
  destruct (is_ws c); simpl; lia.
Qed.

Lemma scan_cons_some c r cs rest :
  scan_cons c r = Some (cs, rest) -> exists cs', r = Some (cs', rest).
Proof. destruct r as [[cs' rest']|]; simpl; [|discriminate]. intros [= <- <-]. eauto. Qed.

Lemma scanstring_length_upto n s cs rest :
  (length s <= n)%nat ->
  scanstring s = Some (cs, rest) -> (length rest < length s)%nat.
Proof.
  revert s cs rest.
  induction n as [|n IH]; intros s cs rest Hle Hs;
    destruct s as [|c s1]; try discriminate; simpl in Hle; [lia|].
  assert (Hrec : forall t cs' c', (length t <= n)%nat ->
            scan_cons c' (scanstring t) = Some (cs', rest) -> (length rest < length t)%nat).
  { intros t cs' c' Ht Hc. apply scan_cons_some in Hc as [cs'' Hc].
    exact (IH _ _ _ Ht Hc). }
  cbn [scanstring] in Hs.
  destruct (c =? QUOTE); [injection Hs as <- <-; simpl; lia|].
  destruct (c =? BACKSLASH).
  - destruct s1 as [|e s2]; [discriminate|].
    destruct (e =? 117).
    + destruct s2 as [|h1 [|h2 [|h3 [|h4 s3]]]]; try discriminate.
      destruct (decode_uXXXX h1 h2 h3 h4) as [uni|]; [|discriminate].
      cbv zeta in Hs. simpl in Hle.
      assert (Hplain : scan_cons uni (scanstring s3) = Some (cs, rest) ->
                       (length rest < length (c :: e :: h1 :: h2 :: h3 :: h4 :: s3))%nat).
      { intros Hp. apply Hrec in Hp; simpl; lia. }
      destruct (is_high_surrogate uni); [|auto].
      destruct s3 as [|b [|u s3']]; auto.
      destruct ((b =? BACKSLASH) && (u =? 117)); [|auto].
      destruct s3' as [|g1 [|g2 [|g3 [|g4 s4]]]]; try discriminate.
      destruct (decode_uXXXX g1 g2 g3 g4) as [uni2|]; [|discriminate].
      destruct (is_low_surrogate uni2); [|auto].
      simpl in Hle. apply Hrec in Hs; simpl; lia.
    + destruct (simple_escape e); [|discriminate].
      simpl in Hle. apply Hrec in Hs; simpl; lia.
  - destruct (c <? SPACE); [discriminate|].
    apply Hrec in Hs; simpl; lia.
Qed.

Lemma scanstring_length s cs rest :
  scanstring s = Some (cs, rest) -> (length rest < length s)%nat.
Proof. now apply (scanstring_length_upto (length s)). Qed.

Lemma strip_prefix_length p s rest :
  strip_prefix p s = Some rest -> length s = (length p + length rest)%nat.
Proof.
  revert s. induction p as [|a p IH]; intros [|b s] Hs; simpl in *; try discriminate.
  - now injection Hs as <-.
  - now injection Hs as <-.
  - destruct (a =? b); [|discriminate]. rewrite (IH s Hs). reflexivity.
Qed.

Lemma span_digits_length s ds rest :
  span_digits s = (ds, rest) -> length s = (length ds + length rest)%nat.
Proof.
  revert ds rest. induction s as [|c s IH]; intros ds rest Hs; simpl in Hs.
  - now injection Hs as <- <-.
  - destruct (is_digit c).
    + destruct (span_digits s) as [ds' rest'] eqn:Hsp. injection Hs as <- <-.
      simpl. now rewrite (IH _ _ eq_refl).
    + now injection Hs as <- <-.
Qed.

Lemma match_natural_length s lit rest :
  match_natural s = Some (lit, rest) -> (length rest < length s)%nat.
Proof.
  unfold match_natural. destruct s as [|c s]; [discriminate|].
  destruct (c =? 48); [intros [= <- <-]; simpl; lia|].
  destruct (is_digit c); [|discriminate].
  destruct (span_digits s) as [ds r] eqn:Hsp. intros [= <- <-].
  apply span_digits_length in Hsp. simpl. lia.
Qed.

Lemma match_integer_length s lit rest :
  match_integer s = Some (lit, rest) -> (length rest < length s)%nat.
Proof.
  unfold match_integer. destruct s as [|c s]; [discriminate|].
  destruct (c =? MINUS).
  - destruct (match_natural s) as [[l r]|] eqn:Hn; [|discriminate].
    intros [= <- <-]. apply match_natural_length in Hn. simpl. lia.
  - apply match_natural_length.
Qed.

Lemma match_frac_length s lit rest :
  match_frac s = Some (lit, rest) -> (length rest < length s)%nat.
Proof.
  unfold match_frac. destruct s as [|c s]; [discriminate|].
  destruct (c =? DOT); [|discriminate].
  destruct (span_digits s) as [[|d ds] r] eqn:Hsp; [discriminate|].
  intros [= <- <-]. apply span_digits_length in Hsp. simpl. lia.
Qed.

Lemma match_exp_length s lit rest :
  match_exp s = Some (lit, rest) -> (length rest < length s)%nat.
Proof.
  unfold match_exp. destruct s as [|e s]; [discriminate|].
  destruct ((e =? 101) || (e =? 69)); [|discriminate].
  destruct s as [|sg s]; [discriminate|].
  destruct ((sg =? MINUS) || (sg =? PLUS)).
  - destruct (span_digits s) as [[|d ds] r] eqn:Hsp; [discriminate|].
    intros [= <- <-]. apply span_digits_length in Hsp. simpl. lia.
  - destruct (span_digits (sg :: s)) as [[|d ds] r] eqn:Hsp; [discriminate|].
    intros [= <- <-]. apply span_digits_length in Hsp. simpl in *. lia.
Qed.

Lemma match_number_length s v rest :
  match_number s = Some (v, rest) -> (length rest < length s)%nat.
Proof.
  unfold match_number.
  destruct (match_integer s) as [[lit s1]|] eqn:Hi; [|discriminate].
  apply match_integer_length in Hi.
  destruct (match_frac s1) as [[frac s2]|] eqn:Hf.
  - apply match_frac_length in Hf.
    destruct (match_exp s2) as [[exp s3]|] eqn:He.
    + apply match_exp_length in He. intros [= <- <-]. lia.
    + intros [= <- <-]. lia.
  - destruct (match_exp s1) as [[exp s3]|] eqn:He.
    + apply match_exp_length in He. intros [= <- <-]. lia.
    + intros [= <- <-]. lia.
Qed.

Lemma scan_constant_length s v rest :
  scan_constant s = Some (v, rest) -> (length rest < length s)%nat.
Proof.
  unfold scan_constant.
  repeat match goal with
    | |- context [strip_prefix ?p s] =>
        let H := fresh "Hp" in
        destruct (strip_prefix p s) eqn:H;
        [apply strip_prefix_length in H; intros [= <- <-];
         rewrite H; vm_compute length; lia|]
    end.
  discriminate.
Qed.

Lemma scan_scalar_length s v rest :
  scan_scalar s = Some (v, rest) -> (length rest < length s)%nat.
Proof.
  unfold scan_scalar.
  repeat match goal with
    | |- context [strip_prefix ?p s] =>
        let H := fresh "Hp" in
        destruct (strip_prefix p s) eqn:H;
        [apply strip_prefix_length in H; intros [= <- <-];
         rewrite H; vm_compute length; lia|]
    end.
  destruct (match_number s) as [[v' r']|] eqn:Hn.
  - intros [= <- <-]. now apply match_number_length in Hn.
  - apply scan_constant_length.
Qed.

Lemma scan_once_step fuel s :
  scan_once (S fuel) s
  = match s with
    | [] => None
    | c :: s1 =>
        if c =? QUOTE then
          match scanstring s1 with
          | Some (cs, rest) => Some (JStr cs, rest)
          | None => None
          end
        else if c =? LBRACE then
          match skip_ws s1 with
          | c2 :: s2 =>
              if c2 =? RBRACE then Some (JObj [], s2)
              else if c2 =? QUOTE then
                match object_items fuel s2 with
                | Some (pairs, rest) => Some (JObj (dict_of_pairs pairs), rest)
                | None => None
                end
              else None
          | [] => None
          end
        else if c =? LBRACKET then
          match skip_ws s1 with
          | c2 :: s2 =>
              if c2 =? RBRACKET then Some (JArr [], s2)
              else
                match array_items fuel (c2 :: s2) with
                | Some (vs, rest) => Some (JArr vs, rest)
                | None => None
                end
          | [] => None
          end
        else scan_scalar s
    end.
Proof. destruct s; reflexivity. Qed.

Lemma skip_ws_cons_length s c t :
  skip_ws s = c :: t -> (length t < length s)%nat.
Proof. intros Hs. pose proof (skip_ws_length s) as Hl. rewrite Hs in Hl. simpl in Hl. lia. Qed.

Lemma decoder_consumes fuel :
  (forall s v rest, scan_once fuel s = Some (v, rest) -> (length rest < length s)%nat)
  /\ (forall s vs rest, array_items fuel s = Some (vs, rest) -> (length rest < length s)%nat)
  /\ (forall s ps rest, object_items fuel s = Some (ps, rest) -> (length rest < length s)%nat).
Proof.
  induction fuel as [|fuel (IHv & IHa & IHo)]; [repeat split; discriminate|].
  repeat split.
  - intros s v rest Hs. rewrite scan_once_step in Hs.
    destruct s as [|c s1]; [discriminate|].
    destruct (c =? QUOTE).
    { destruct (scanstring s1) as [[cs r]|] eqn:Hstr; [|discriminate].
      injection Hs as <- <-. apply scanstring_length in Hstr. simpl. lia. }
    destruct (c =? LBRACE).
    { destruct (skip_ws s1) as [|c2 s2] eqn:Hws; [discriminate|].
      apply skip_ws_cons_length in Hws.
      destruct (c2 =? RBRACE); [injection Hs as <- <-; simpl; lia|].
      destruct (c2 =? QUOTE); [|discriminate].
      destruct (object_items fuel s2) as [[ps r]|] eqn:Ho; [|discriminate].
      injection Hs as <- <-. apply IHo in Ho. simpl. lia. }
    destruct (c =? LBRACKET).
    { destruct (skip_ws s1) as [|c2 s2] eqn:Hws; [discriminate|].
      apply skip_ws_cons_length in Hws.
      destruct (c2 =? RBRACKET); [injection Hs as <- <-; simpl; lia|].
      destruct (array_items fuel (c2 :: s2)) as [[vs r]|] eqn:Ha; [|discriminate].
      injection Hs as <- <-. apply IHa in Ha. simpl in *. lia. }
    now apply scan_scalar_length in Hs.
  - intros s vs rest Hs. rewrite array_items_step in Hs.
    destruct (scan_once fuel s) as [[v s1]|] eqn:Hv; [|discriminate].
    apply IHv in Hv.
    destruct (skip_ws s1) as [|c s2] eqn:Hws; [discriminate|].
    apply skip_ws_cons_length in Hws.
    destruct (c =? RBRACKET); [injection Hs as <- <-; lia|].
    destruct (c =? COMMA); [|discriminate].
    destruct (array_items fuel (skip_ws s2)) as [[vs' r]|] eqn:Ha; [|discriminate].
    injection Hs as <- <-. apply IHa in Ha.
    pose proof (skip_ws_length s2). lia.
  - intros s ps rest Hs. rewrite object_items_step in Hs.
    destruct (scanstring s) as [[key s1]|] eqn:Hk; [|discriminate].
    apply scanstring_length in Hk.
    destruct (skip_ws s1) as [|c s2] eqn:Hws; [discriminate|].
    apply skip_ws_cons_length in Hws.
    destruct (c =? COLON); [|discriminate].
    destruct (scan_once fuel (skip_ws s2)) as [[v s3]|] eqn:Hv; [|discriminate].
    apply IHv in Hv. pose proof (skip_ws_length s2).
    destruct (skip_ws s3) as [|c3 s4] eqn:Hws3; [discriminate|].
    apply skip_ws_cons_length in Hws3.
    destruct (c3 =? RBRACE); [injection Hs as <- <-; lia|].
    destruct (c3 =? COMMA); [|discriminate].
    destruct (skip_ws s4) as [|q s5] eqn:Hws4; [discriminate|].
    apply skip_ws_cons_length in Hws4.
    destruct (q =? QUOTE); [|discriminate].
    destruct (object_items fuel s5) as [[ps' r]|] eqn:Ho; [|discriminate].
    injection Hs as <- <-. apply IHo in Ho. lia.
Qed.

(** More fuel never changes a result. *)
Lemma decoder_fuel_mono fuel :
  (forall s r fuel', scan_once fuel s = Some r -> (fuel <= fuel')%nat ->
                     scan_once fuel' s = Some r)
  /\ (forall s r fuel', array_items fuel s = Some r -> (fuel <= fuel')%nat ->
                        array_items fuel' s = Some r)
  /\ (forall s r fuel', object_items fuel s = Some r -> (fuel <= fuel')%nat ->
                        object_items fuel' s = Some r).
Proof.
  induction fuel as [|fuel (IHv & IHa & IHo)]; [repeat split; discriminate|].
  repeat split; intros s r [|fuel'] Hs Hle; try lia;
    assert (Hle' : (fuel <= fuel')%nat) by lia.
  - rewrite scan_once_step in *.
    destruct s as [|c s1]; [discriminate|].
    destruct (c =? QUOTE); [exact Hs|].
    destruct (c =? LBRACE).
    { destruct (skip_ws s1) as [|c2 s2]; [discriminate|].
      destruct (c2 =? RBRACE); [exact Hs|].
      destruct (c2 =? QUOTE); [|discriminate].
      destruct (object_items fuel s2) as [ro|] eqn:Ho; [|discriminate].
      now rewrite (IHo _ _ fuel' Ho Hle'). }
    destruct (c =? LBRACKET); [|exact Hs].
    destruct (skip_ws s1) as [|c2 s2]; [discriminate|].
    destruct (c2 =? RBRACKET); [exact Hs|].
    destruct (array_items fuel (c2 :: s2)) as [ra|] eqn:Ha; [|discriminate].
    now rewrite (IHa _ _ fuel' Ha Hle').
  - rewrite array_items_step in *.
    destruct (scan_once fuel s) as [[v s1]|] eqn:Hv; [|discriminate].
    rewrite (IHv _ _ fuel' Hv Hle').
    destruct (skip_ws s1) as [|c s2]; [discriminate|].
    destruct (c =? RBRACKET); [exact Hs|].
    destruct (c =? COMMA); [|discriminate].
    destruct (array_items fuel (skip_ws s2)) as [ra|] eqn:Ha; [|discriminate].
    now rewrite (IHa _ _ fuel' Ha Hle').
  - rewrite object_items_step in *.
    destruct (scanstring s) as [[key s1]|]; [|discriminate].
    destruct (skip_ws s1) as [|c s2]; [discriminate|].
    destruct (c =? COLON); [|discriminate].
    destruct (scan_once fuel (skip_ws s2)) as [[v s3]|] eqn:Hv; [|discriminate].
    rewrite (IHv _ _ fuel' Hv Hle').
    destruct (skip_ws s3) as [|c3 s4]; [discriminate|].
    destruct (c3 =? RBRACE); [exact Hs|].
    destruct (c3 =? COMMA); [|discriminate].
    destruct (skip_ws s4) as [|q s5]; [discriminate|].
    destruct (q =? QUOTE); [|discriminate].
    destruct (object_items fuel s5) as [ro|] eqn:Ho; [|discriminate].
    now rewrite (IHo _ _ fuel' Ho Hle').
Qed.

(** A successful run needs no more fuel than the characters it consumed. *)
Lemma decoder_fuel_bound fuel :
  (forall s v rest, scan_once fuel s = Some (v, rest) ->
                    scan_once (length s - length rest) s = Some (v, rest))
  /\ (forall s vs rest, array_items fuel s = Some (vs, rest) ->
                        array_items (length s - length rest) s = Some (vs, rest))
  /\ (forall s ps rest, object_items fuel s = Some (ps, rest) ->
                        object_items (length s - length rest) s = Some (ps, rest)).
Proof.
  induction fuel as [|fuel (IHv & IHa & IHo)]; [repeat split; discriminate|].
  destruct (decoder_consumes fuel) as (Cv & Ca & Co).
  repeat split.
  - intros s v rest Hs.
    pose proof (proj1 (decoder_consumes (S fuel)) _ _ _ Hs) as Hlen.
    destruct (length s - length rest)%nat as [|m] eqn:Hm; [lia|].
    rewrite scan_once_step in *.
    destruct s as [|c s1]; [discriminate|]. simpl in Hm.
    destruct (c =? QUOTE); [exact Hs|].
    destruct (c =? LBRACE).
    { destruct (skip_ws s1) as [|c2 s2] eqn:Hws; [discriminate|].
      apply skip_ws_cons_length in Hws.
      destruct (c2 =? RBRACE); [exact Hs|].
      destruct (c2 =? QUOTE); [|discriminate].
      destruct (object_items fuel s2) as [[ps r]|] eqn:Ho; [|discriminate].
      injection Hs as <- <-. pose proof (Co _ _ _ Ho).
      apply IHo in Ho.
      now rewrite (proj2 (proj2 (decoder_fuel_mono _)) _ _ m Ho) by lia. }
    destruct (c =? LBRACKET); [|exact Hs].
    destruct (skip_ws s1) as [|c2 s2] eqn:Hws; [discriminate|].
    apply skip_ws_cons_length in Hws.
    destruct (c2 =? RBRACKET); [exact Hs|].
    destruct (array_items fuel (c2 :: s2)) as [[vs r]|] eqn:Ha; [|discriminate].
    injection Hs as <- <-. pose proof (Ca _ _ _ Ha).
    apply IHa in Ha.
    now rewrite (proj1 (proj2 (decoder_fuel_mono _)) _ _ m Ha) by (simpl in *; lia).
  - intros s vs rest Hs.
    pose proof (proj1 (proj2 (decoder_consumes (S fuel))) _ _ _ Hs) as Hlen.
    destruct (length s - length rest)%nat as [|m] eqn:Hm; [lia|].
    rewrite array_items_step in *.
    destruct (scan_once fuel s) as [[v s1]|] eqn:Hv; [|discriminate].
    pose proof (Cv _ _ _ Hv). apply IHv in Hv.
    destruct (skip_ws s1) as [|c s2] eqn:Hws; [discriminate|].
    pose proof (skip_ws_cons_length _ _ _ Hws).
    destruct (c =? RBRACKET) eqn:Hc.
    { injection Hs as <- <-.
      rewrite (proj1 (decoder_fuel_mono _) _ _ m Hv) by lia.
      now rewrite Hws, Hc. }
    destruct (c =? COMMA) eqn:Hc'; [|discriminate].
    destruct (array_items fuel (skip_ws s2)) as [[vs' r]|] eqn:Ha; [|discriminate].
    injection Hs as <- <-. pose proof (Ca _ _ _ Ha). pose proof (skip_ws_length s2).
    apply IHa in Ha.
    rewrite (proj1 (decoder_fuel_mono _) _ _ m Hv) by lia.
    rewrite Hws, Hc, Hc'.
    now rewrite (proj1 (proj2 (decoder_fuel_mono _)) _ _ m Ha) by lia.
  - intros s ps rest Hs.
    pose proof (proj2 (proj2 (decoder_consumes (S fuel))) _ _ _ Hs) as Hlen.
    destruct (length s - length rest)%nat as [|m] eqn:Hm; [lia|].
    rewrite object_items_step in *.
    destruct (scanstring s) as [[key s1]|] eqn:Hk; [|discriminate].
    apply scanstring_length in Hk.
    destruct (skip_ws s1) as [|c s2] eqn:Hws; [discriminate|].
    pose proof (skip_ws_cons_length _ _ _ Hws).
    destruct (c =? COLON); [|discriminate].
    destruct (scan_once fuel (skip_ws s2)) as [[v s3]|] eqn:Hv; [|discriminate].
    pose proof (Cv _ _ _ Hv). pose proof (skip_ws_length s2). apply IHv in Hv.
    destruct (skip_ws s3) as [|c3 s4] eqn:Hws3; [discriminate|].
    pose proof (skip_ws_cons_length _ _ _ Hws3).
    destruct (c3 =? RBRACE) eqn:Hc3.
    { injection Hs as <- <-.
      rewrite (proj1 (decoder_fuel_mono _) _ _ m Hv) by lia.
      now rewrite Hws3, Hc3. }
    destruct (c3 =? COMMA) eqn:Hc3'; [|discriminate].
    destruct (skip_ws s4) as [|q s5] eqn:Hws4; [discriminate|].
    pose proof (skip_ws_cons_length _ _ _ Hws4).
    destruct (q =? QUOTE) eqn:Hq; [|discriminate].
    destruct (object_items fuel s5) as [[ps' r]|] eqn:Ho; [|discriminate].
    injection Hs as <- <-. pose proof (Co _ _ _ Ho). apply IHo in Ho.
    rewrite (proj1 (decoder_fuel_mono _) _ _ m Hv) by lia.
    rewrite Hws3, Hc3, Hc3', Hws4, Hq.
    now rewrite (proj2 (proj2 (decoder_fuel_mono _)) _ _ m Ho) by lia.
Qed.

(** The fuel [json_loads] gives the decoder is enough: whatever any amount
    of fuel decodes, it decodes. *)
Lemma scan_once_enough fuel s v rest :
  scan_once fuel s = Some (v, rest) ->
  forall fuel', (length s <= fuel')%nat -> scan_once fuel' s = Some (v, rest).
Proof.
  intros Hs fuel' Hle.
  apply (proj1 (decoder_fuel_bound fuel)) in Hs.
  apply (proj1 (decoder_fuel_mono _) _ _ fuel' Hs). lia.
Qed.

(** [json_loads] fails only on text that no amount of fuel decodes: its
    [JSONDecodeError] is never a lack of fuel. *)
Lemma json_loads_complete s fuel v rest :
  starts_with_bom s = false ->
  scan_once fuel (skip_ws s) = Some (v, rest) ->
  skip_ws rest = [] ->
  json_loads s = Ok v.
Proof.
  intros Hbom Hscan Hrest. unfold json_loads. rewrite Hbom.
  rewrite (scan_once_enough _ _ _ _ Hscan) by (pose proof (skip_ws_length s); lia).
  now rewrite Hrest.
Qed.

Lemma json_loads_error_any_fuel s fuel :
  json_loads s = Raise JSONDecodeError ->
  starts_with_bom s = true
  \/ match scan_once fuel (skip_ws s) with
     | Some (v, rest) => skip_ws rest <> []
     | None => True
     end.
Proof.
  intros Hload. destruct (starts_with_bom s) eqn:Hbom; [now left | right].
  destruct (scan_once fuel (skip_ws s)) as [[v rest]|] eqn:Hscan; [|exact I].
  intros Hrest. now rewrite (json_loads_complete _ _ _ _ Hbom Hscan Hrest) in Hload.
Qed.

(** ** [json.loads] inverts [json.dumps] *)

Section LoadsDumps.
Context `{FloatFormat}.

Lemma json_loads_iterencode level v :
  json_ok v = true -> json_loads (iterencode level v) = Ok v.
Proof.
  intros Hok. unfold json_loads.
  pose proof (iterencode_starts v level Hok) as Hstart.
  rewrite starts_value_no_bom, skip_ws_starts by exact Hstart.
  pose proof (iterencode_reads_back v Hok level [] (json_size v) eq_refl (le_n _)) as Hscan.
  rewrite app_nil_r in Hscan.
  rewrite (scan_once_enough _ _ _ _ Hscan) by lia. reflexivity.
Qed.

Lemma json_loads_dumps v : json_ok v = true -> json_loads (json_dumps v) = Ok v.
Proof. apply json_loads_iterencode. Qed.

End LoadsDumps.

(** ** The encoder writes ASCII only *)

Lemma hexdigit_ascii d : d < 16 -> hexdigit d < 128.
Proof. unfold hexdigit. intros Hd. case_cmp; lia. Qed.

Lemma u_escape_ascii n : Forall (fun c => c < 128) (u_escape n).
Proof.
  unfold u_escape, hex4, BACKSLASH.
  repeat (apply Forall_cons; split); try lia; try (apply hexdigit_ascii; ndiv).
  apply Forall_nil_2.
Qed.

Lemma escape_char_ascii c : Forall (fun c => c < 128) (escape_char c).
Proof.
  unfold escape_char, QUOTE, BACKSLASH, LF, CR, TAB, FF, BS, SPACE.
  repeat match goal with
         | |- context [c =? ?k] => destruct (N.eqb_spec c k)
         end;
    try (repeat (apply Forall_cons; split); try lia; apply Forall_nil_2).
  destruct (N.leb_spec 32 c); destruct (N.leb_spec c 126); cbn [andb].
  1: { repeat (apply Forall_cons; split); try lia. apply Forall_nil_2. }
  all: destruct (N.ltb_spec c 65536);
    [apply u_escape_ascii | cbv zeta; apply Forall_app; split; apply u_escape_ascii].
Qed.

Lemma encode_basestring_ascii_ascii s :
  Forall (fun c => c < 128) (encode_basestring_ascii s).
Proof.
  unfold encode_basestring_ascii, QUOTE. apply Forall_cons. split; [lia|].
  apply Forall_app. split.
  - induction s as [|c s IH]; [apply Forall_nil_2|].
    cbn [flat_map]. apply Forall_app. split; [apply escape_char_ascii | exact IH].
  - apply Forall_cons. split; [lia | apply Forall_nil_2].
Qed.

Lemma intstr_ascii z : Forall (fun c => c < 128) (intstr z).
Proof.
  assert (Hd : forall d, Forall (fun c => c < 128) (uint_digits d)).
  { induction d; cbn [uint_digits]; try (apply Forall_cons; split; [lia | exact IHd]).
    apply Forall_nil_2. }
  unfold intstr. destruct (Z.to_int z); [apply Hd|].
  apply Forall_cons. split; [unfold MINUS; lia | apply Hd].
Qed.

Lemma newline_indent_ascii level : Forall (fun c => c < 128) (newline_indent level).
Proof.
  unfold newline_indent, LF, SPACE. apply Forall_cons. split; [lia|].
  induction (4 * level)%nat as [|n IH]; [apply Forall_nil_2|].
  cbn [repeat]. apply Forall_cons. split; [lia | exact IH].
Qed.

Lemma join_ascii sep (chunks : list (list N)) :
  Forall (fun c => c < 128) sep ->
  Forall (Forall (fun c => c < 128)) chunks ->
  Forall (fun c => c < 128) (join sep chunks).
Proof.
  intros Hsep. induction 1 as [|c cs Hc Hcs IH]; [apply Forall_nil_2|].
  cbn [join]. apply Forall_app. split; [exact Hc|].
  destruct cs; [apply Forall_nil_2|]. apply Forall_app. split; [exact Hsep | exact IH].
Qed.

Section Ascii.
Context `{FloatFormat}.

(** Whatever [json.dump] writes for a value without floats is ASCII, one
    byte per character in every ASCII-compatible encoding. *)
Lemma iterencode_ascii v :
  json_ok v = true -> forall level, Forall (fun c => c < 128) (iterencode level v).
Proof.
  induction v as [| b | z | l | s | items IH | members IH] using json_nested_ind;
    intros Hok level.
  - repeat (apply Forall_cons; split; [cbn; lia|]). apply Forall_nil_2.
  - destruct b; repeat (apply Forall_cons; split; [cbn; lia|]); apply Forall_nil_2.
  - apply intstr_ascii.
  - discriminate.
  - apply encode_basestring_ascii_ascii.
  - destruct items as [|x items].
    { repeat (apply Forall_cons; split; [cbn; lia|]). apply Forall_nil_2. }
    cbn [iterencode]. cbn [json_ok] in Hok.
    apply Forall_cons. split; [unfold LBRACKET; lia|].
    apply Forall_app; split; [apply newline_indent_ascii|].
    apply Forall_app; split; [|apply Forall_app; split; [apply newline_indent_ascii|]].
    + apply join_ascii.
      * apply Forall_cons. split; [unfold COMMA; lia | apply newline_indent_ascii].
      * apply Forall_map. rewrite forallb_forall in Hok.
        rewrite Forall_forall in *. intros y Hy.
        apply IH; [exact Hy|]. apply Hok. now apply list_elem_of_In.
    + apply Forall_cons. split; [unfold RBRACKET; lia | apply Forall_nil_2].
  - destruct members as [|kv members].
    { repeat (apply Forall_cons; split; [cbn; lia|]). apply Forall_nil_2. }
    cbn [iterencode]. cbn [json_ok] in Hok. apply andb_true_iff in Hok as [Hok _].
    apply Forall_cons. split; [unfold LBRACE; lia|].
    apply Forall_app; split; [apply newline_indent_ascii|].
    apply Forall_app; split; [|apply Forall_app; split; [apply newline_indent_ascii|]].
    + apply join_ascii.
      * apply Forall_cons. split; [unfold COMMA; lia | apply newline_indent_ascii].
      * apply Forall_map. rewrite forallb_forall in Hok.
        rewrite Forall_forall in *. intros y Hy. cbn beta.
        apply Forall_app. split; [apply encode_basestring_ascii_ascii|].
        apply Forall_cons. split; [unfold COLON; lia|].
        apply Forall_cons. split; [unfold SPACE; lia|].
        apply IH; [exact Hy|].
        specialize (Hok y (proj1 (list_elem_of_In _ _) Hy)).
        now apply andb_true_iff in Hok as [_ Hok].
    + apply Forall_cons. split; [unfold RBRACE; lia | apply Forall_nil_2].
Qed.

End Ascii.

(** * The result store *)

Lemma json_loads_raises s e : json_loads s = Raise e -> e = JSONDecodeError.
Proof.
  unfold json_loads. destruct (starts_with_bom s); [congruence|].
  destruct (scan_once _ _) as [[v rest]|]; [|congruence].
  destruct (skip_ws rest); [discriminate | congruence].
Qed.

Section Store.
Context `{FloatFormat}.

(** With an existing file, the call never raises; it writes the old data
    followed by the new record over the start of the old content. *)
Lemma append_existing_content data old :
  let written := json_dumps (JArr (existing_data old ++ [data])) in
  append_existing data (mkFile old 0)
  = (Ok tt, mkFile (written ++ drop (length written) old) (length written)).
Proof.
  unfold append_existing, existing_data, json_load, f_read. cbn [pos content].
  rewrite drop_0.
  destruct (json_loads old) as [v|e] eqn:Hload.
  - destruct v; reflexivity.
  - apply json_loads_raises in Hload as ->. reflexivity.
Qed.

Lemma append_to_existing (path : list N) (data : json) (old : list N) (fs : gmap (list N) (list N)) :
  fs !! path = Some old ->
  let written := json_dumps (JArr (existing_data old ++ [data])) in
  append_to_output_file path data fs
  = (Ok tt, <[path := written ++ drop (length written) old]> fs).
Proof.
  intros Hold. unfold append_to_output_file. rewrite Hold.
  now rewrite append_existing_content.
Qed.

Lemma append_to_absent (path : list N) (data : json) (fs : gmap (list N) (list N)) :
  fs !! path = None ->
  append_to_output_file path data fs = (Ok tt, <[path := json_dumps (JArr [data])]> fs).
Proof.
  intros Hnone. unfold append_to_output_file. rewrite Hnone.
  unfold json_dump, f_write. cbn [pos content take drop app]. now rewrite app_nil_r.
Qed.

Lemma join_snoc sep (cs : list (list N)) c :
  cs <> [] -> join sep (cs ++ [c]) = join sep cs ++ sep ++ c.
Proof.
  induction cs as [|d cs IH]; [easy|]. intros _.
  destruct cs as [|d' cs].
  - simpl. now rewrite !app_nil_r.
  - change ((d :: d' :: cs) ++ [c]) with (d :: ((d' :: cs) ++ [c])).
    rewrite !join_cons by easy. rewrite IH by easy. now rewrite <- !app_assoc.
Qed.

(** A longer array has a longer encoding: what is written over an array
    the store wrote covers all of it. *)
Lemma dumps_snoc_length items data :
  (length (json_dumps (JArr items)) <= length (json_dumps (JArr (items ++ [data]))))%nat.
Proof.
  unfold json_dumps. destruct items as [|x items].
  - cbn [app iterencode]. rewrite !length_cons. simpl. lia.
  - change ((x :: items) ++ [data]) with (x :: (items ++ [data])).
    cbn [iterencode].
    change (x :: (items ++ [data])) with ((x :: items) ++ [data]).
    rewrite map_app. cbn [map]. rewrite join_snoc by easy.
    rewrite !length_cons, !length_app. lia.
Qed.

Lemma json_ok_array items :
  json_ok (JArr items) = forallb json_ok items.
Proof. reflexivity. Qed.

(** On a file that holds the encoding of an array of records, the call
    leaves the encoding of the array extended by the new record. *)
Lemma append_to_written (path : list N) (data : json) (items : list json) (fs : gmap (list N) (list N)) :
  fs !! path = Some (json_dumps (JArr items)) ->
  forallb json_ok items = true ->
  append_to_output_file path data fs
  = (Ok tt, <[path := json_dumps (JArr (items ++ [data]))]> fs).
Proof.
  intros Hold Hok. rewrite (append_to_existing _ _ _ _ Hold). cbv zeta.
  unfold existing_data. rewrite json_loads_dumps by exact Hok.
  rewrite drop_ge by apply dumps_snoc_length. now rewrite app_nil_r.
Qed.

(** The state of the file after a run of calls from an absent file. *)
Lemma append_all_from_absent (path : list N) (records : list json) (fs : gmap (list N) (list N)) :
  fs !! path = None ->
  forallb json_ok records = true ->
  append_all path records fs
  = (Ok tt, match records with
            | [] => fs
            | _ :: _ => <[path := json_dumps (JArr records)]> fs
            end).
Proof.
  intros Hnone Hok.
  assert (Hgen : forall done todo (fs' : gmap (list N) (list N)),
            done <> [] ->
            fs' !! path = Some (json_dumps (JArr done)) ->
            forallb json_ok (done ++ todo) = true ->
            append_all path todo fs'
            = (Ok tt, <[path := json_dumps (JArr (done ++ todo))]> fs')).
  { intros done todo. revert done.
    induction todo as [|r todo IH]; intros done fs' Hne Hfile Hall.
    - rewrite app_nil_r. simpl. now rewrite insert_id.
    - cbn [append_all]. rewrite forallb_app in Hall.
      apply andb_true_iff in Hall as [Hdone Htodo].
      rewrite (append_to_written _ _ _ _ Hfile Hdone).
      rewrite (IH (done ++ [r])).
      + rewrite insert_insert_eq. now rewrite <- app_assoc.
      + now destruct done.
      + apply lookup_insert_eq.
      + rewrite <- app_assoc. rewrite forallb_app. now rewrite Hdone. }
  destruct records as [|r records]; [reflexivity|].
  cbn [append_all]. rewrite (append_to_absent _ _ _ Hnone).
  rewrite (Hgen [r] records); [| easy | apply lookup_insert_eq | exact Hok].
  now rewrite insert_insert_eq.
Qed.

(** C1. From an absent output file, every call of a sequence of appends
    returns normally, and after the call that appends [r] to the records
    [rs] appended before it, the file parses as the JSON array [rs ++ [r]],
    in that order; two calls leave [[r1, r2]]. *)
Theorem append_round_trip (path : list N) (rs : list json) (r : json) (fs : gmap (list N) (list N)) :
  fs !! path = None ->
  forallb json_ok rs = true -> json_ok r = true ->
  exists fs1 fs2,
    append_all path rs fs = (Ok tt, fs1)
    /\ append_to_output_file path r fs1 = (Ok tt, fs2)
    /\ json_loads <$> (fs2 !! path) = Some (Ok (JArr (rs ++ [r])))
    /\ append_all path (rs ++ [r]) fs = (Ok tt, fs2).
Proof.
  intros Hnone Hrs Hr.
  assert (Hall : forallb json_ok (rs ++ [r]) = true).
  { rewrite forallb_app. simpl. now rewrite Hrs, Hr. }
  rewrite (append_all_from_absent _ _ _ Hnone Hrs).
  rewrite (append_all_from_absent _ _ _ Hnone Hall).
  exists (match rs with [] => fs | _ :: _ => <[path := json_dumps (JArr rs)]> fs end).
  exists (<[path := json_dumps (JArr (rs ++ [r]))]> fs).
  split; [reflexivity|]. split; [|split].
  - destruct rs as [|r0 rs'].
    + now apply append_to_absent.
    + rewrite (append_to_written path r (r0 :: rs')); [| apply lookup_insert_eq | exact Hrs].
      now rewrite insert_insert_eq.
  - rewrite lookup_insert_eq. cbn [fmap option_fmap option_map].
    now rewrite json_loads_dumps.
  - now destruct rs.
Qed.


End Store.

(** * The batch driver *)

Section Driver.
Context `{FloatFormat} `{Collaborators}.

Lemma bind_lift {A B} (r : Result A) (k : A -> M B) (w : World) :
  (x ← lift r; k x) w = match r with Ok a => k a w | Raise e => (Raise e, w) end.
Proof. unfold mbind, M_bind, lift. now destruct r. Qed.

Lemma bind_run {A B} (m : M A) (k : A -> M B) (w : World) :
  (x ← m; k x) w
  = match m w with
    | (Ok a, w1) => k a w1
    | (Raise e, w1) => (Raise e, w1)
    end.
Proof. reflexivity. Qed.

(** A call of the model logs its prompt and touches neither the files nor
    the progress bar. *)
Lemma get_local_response_effect (prompt : list N) (t p pp : json) (w : World) :
  files (snd (get_local_response prompt t p pp w)) = files w
  /\ pbar_n (snd (get_local_response prompt t p pp w)) = pbar_n w
  /\ pbar_total (snd (get_local_response prompt t p pp w)) = pbar_total w
  /\ calls (snd (get_local_response prompt t p pp w)) = calls w ++ [prompt].
Proof.
  unfold get_local_response, log_call, run_model, mbind, M_bind, lift.
  destruct (tokenizer_call prompt) as [inputs|e]; cbn [fst snd files pbar_n pbar_total calls backend];
    [|easy].
  destruct (model_generate (backend w) inputs t p pp) as [[output|e] b];
    cbn [fst snd files pbar_n pbar_total calls]; [|easy].
  destruct (tokenizer_decode output); easy.
Qed.

(** The store never raises. *)
Lemma append_returns (path : list N) (data : json) (fs : gmap (list N) (list N)) :
  fst (append_to_output_file path data fs) = Ok tt.
Proof.
  destruct (fs !! path) as [old|] eqn:Hfile.
  - now rewrite (append_to_existing _ _ _ _ Hfile).
  - now rewrite (append_to_absent _ _ _ Hfile).
Qed.

(** What one run of the [try] block does, case by case: it raises before
    any record is written, having sent none, one or both prompts; or it
    sends both prompts and appends the record built from the question and
    the extraction. *)
Lemma item_body_cases (cfg : Config) (q : json) (w : World) :
  pbar_n (snd (item_body cfg q w)) = pbar_n w
  /\ pbar_total (snd (item_body cfg q w)) = pbar_total w
  /\ exists sent,
      calls (snd (item_body cfg q w)) = calls w ++ sent
      /\ ((exists e,
             fst (item_body cfg q w) = Raise e
             /\ files (snd (item_body cfg q w)) = files w
             /\ (sent = []
                 \/ exists rg, rg_prompt_of cfg q = Ok rg
                      /\ (sent = [rg]
                          \/ exists dg, dg_prompt_of cfg q = Ok dg /\ sent = [rg; dg])))
          \/ (exists rg dg r d w1 w2 extracted result,
                fst (item_body cfg q w) = Ok tt
                /\ rg_prompt_of cfg q = Ok rg
                /\ dg_prompt_of cfg q = Ok dg
                /\ sent = [rg; dg]
                /\ get_local_response rg (temperature cfg) (top_p cfg)
                                      (presence_penalty cfg) w = (Ok r, w1)
                /\ get_local_response dg (temperature cfg) (top_p cfg)
                                      (presence_penalty cfg) w1 = (Ok d, w2)
                /\ backend (snd (item_body cfg q w)) = backend w2
                /\ format_distractor_output d = Ok extracted
                /\ build_result q extracted = Ok result
                /\ append_to_output_file (output_file cfg) result (files w)
                   = (Ok tt, files (snd (item_body cfg q w))))).
Proof.
  unfold item_body, rg_prompt_of, dg_prompt_of.
  rewrite bind_lift.
  destruct (py_getitem (prompt_config cfg) (str "rg")) as [rg_t|e] eqn:Ergt;
    cbn [mbind Result_bind fst snd].
  2: { repeat split. exists []. rewrite app_nil_r. split; [reflexivity|]. left. eauto 10. }
  rewrite bind_lift.
  destruct (producePrompt rg_t q (Some (distractor_principle cfg))) as [rg|e] eqn:Erg;
    cbn [fst snd].
  2: { repeat split. exists []. rewrite app_nil_r. split; [reflexivity|]. left. eauto 10. }
  rewrite bind_run.
  destruct (get_local_response_effect rg (temperature cfg) (top_p cfg) (presence_penalty cfg) w)
    as (Hf1 & Hn1 & Ht1 & Hc1).
  destruct (get_local_response rg (temperature cfg) (top_p cfg) (presence_penalty cfg) w)
    as [[r|e] w1] eqn:Ecall1; cbn [fst snd] in *.
  2: { repeat split; try assumption. exists [rg]. split; [assumption|]. left.
       exists e. repeat split; try assumption. right. exists rg. eauto. }
  rewrite bind_lift.
  destruct (py_getitem (prompt_config cfg) (str "format")) as [format|e]; cbn [fst snd].
  2: { repeat split; try assumption. exists [rg]. split; [assumption|]. left.
       exists e. repeat split; try assumption. right. exists rg. eauto. }
  rewrite bind_lift.
  destruct (format_rationale_output r format) as [inference|e]; cbn [fst snd].
  2: { repeat split; try assumption. exists [rg]. split; [assumption|]. left.
       exists e. repeat split; try assumption. right. exists rg. eauto. }
  rewrite bind_lift.
  destruct (py_getitem (prompt_config cfg) (str "dg")) as [dg_t|e] eqn:Edgt; cbn [fst snd].
  2: { repeat split; try assumption. exists [rg]. split; [assumption|]. left.
       exists e. repeat split; try assumption. right. exists rg. eauto. }
  rewrite bind_lift.
  destruct (producePrompt dg_t q None) as [dg|e] eqn:Edg; cbn [fst snd].
  2: { repeat split; try assumption. exists [rg]. split; [assumption|]. left.
       exists e. repeat split; try assumption. right. exists rg. eauto. }
  rewrite bind_run.
  destruct (get_local_response_effect dg (temperature cfg) (top_p cfg) (presence_penalty cfg) w1)
    as (Hf2 & Hn2 & Ht2 & Hc2).
  destruct (get_local_response dg (temperature cfg) (top_p cfg) (presence_penalty cfg) w1)
    as [[d|e] w2] eqn:Ecall2; cbn [fst snd] in *.
  all: assert (Hsent : calls w2 = calls w ++ [rg; dg])
    by (rewrite Hc2, Hc1, <- app_assoc; reflexivity).
  all: assert (Hfiles : files w2 = files w) by congruence.
  all: assert (Hn : pbar_n w2 = pbar_n w) by congruence.
  all: assert (Ht : pbar_total w2 = pbar_total w) by congruence.
  2: { repeat split; try assumption. exists [rg; dg]. split; [assumption|]. left.
       exists e. repeat split; try assumption. right. exists rg. split; [reflexivity|].
       right. exists dg. eauto. }
  rewrite bind_lift.
  destruct (format_distractor_output d) as [extracted|e] eqn:Eext; cbn [fst snd].
  2: { repeat split; try assumption. exists [rg; dg]. split; [assumption|]. left.
       exists e. repeat split; try assumption. right. exists rg. split; [reflexivity|].
       right. exists dg. eauto. }
  rewrite bind_lift.
  destruct (build_result q extracted) as [result|e] eqn:Eres; cbn [fst snd].
  2: { repeat split; try assumption. exists [rg; dg]. split; [assumption|]. left.
       exists e. repeat split; try assumption. right. exists rg. split; [reflexivity|].
       right. exists dg. eauto. }
  unfold on_files.
  pose proof (append_returns (output_file cfg) result (files w2)) as Hret.
  destruct (append_to_output_file (output_file cfg) result (files w2)) as [ra fs'] eqn:Eapp.
  cbn [fst snd files pbar_n pbar_total calls] in *. subst ra.
  repeat split; try assumption. exists [rg; dg]. split; [assumption|]. right.
  exists rg, dg, r, d, w1, w2, extracted, result. rewrite <- Hfiles.
  repeat split; assumption.
Qed.

(** [try: ... finally: pbar.update(1)]: the outcome of the block, the
    counter one higher. *)
Lemma process_item_eq (cfg : Config) (q : json) (w : World) :
  process_item cfg q w
  = (fst (item_body cfg q w),
     mkWorld _ (files (snd (item_body cfg q w))) (pbar_n (snd (item_body cfg q w)) + 1)
             (pbar_total (snd (item_body cfg q w))) (backend (snd (item_body cfg q w)))
             (calls (snd (item_body cfg q w)))).
Proof.
  unfold process_item, try_finally, pbar_update.
  now destruct (item_body cfg q w) as [r w1].
Qed.

Lemma process_item_pbar (cfg : Config) (q : json) (w : World) :
  pbar_n (snd (process_item cfg q w)) = S (pbar_n w)
  /\ pbar_total (snd (process_item cfg q w)) = pbar_total w.
Proof.
  rewrite process_item_eq. cbn [snd pbar_n pbar_total].
  destruct (item_body_cases cfg q w) as (Hn & Ht & _). rewrite Hn, Ht. split; [lia | reflexivity].
Qed.

(** C6. When a turn of the loop raises -- in the prompt construction, in a
    model call or in an extraction -- it has appended no record: the files
    are as they were before the turn. *)
Theorem failed_item_appends_nothing (cfg : Config) (q : json) (w w' : World) (e : exn) :
  process_item cfg q w = (Raise e, w') -> files w' = files w.
Proof.
  rewrite process_item_eq. intros [= Hr <-]. cbn [files].
  destruct (item_body_cases cfg q w) as (_ & _ & sent & _ & [(e' & _ & Hfiles & _) | Hok]).
  - exact Hfiles.
  - destruct Hok as (rg & dg & r & d & w1 & w2 & ex & res & Hfst & _). congruence.
Qed.

(** C3. The prompt of the distractor stage depends on the configuration
    and the question record alone: whatever the model answered in the
    first stage -- in any two worlds -- the second prompt sent for an item
    is the same, the one built from the template and the question without
    a third argument. *)
Theorem distractor_prompt_ignores_rationale
    (cfg : Config) (q : json) (w1 w2 : World) (sent1 sent2 : list (list N))
    (dg1 dg2 : list N) :
  calls (snd (process_item cfg q w1)) = calls w1 ++ sent1 ->
  calls (snd (process_item cfg q w2)) = calls w2 ++ sent2 ->
  sent1 !! 1%nat = Some dg1 ->
  sent2 !! 1%nat = Some dg2 ->
  dg_prompt_of cfg q = Ok dg1 /\ dg2 = dg1.
Proof.
  assert (Hone : forall (w : World) sent dg,
            calls (snd (process_item cfg q w)) = calls w ++ sent ->
            sent !! 1%nat = Some dg -> dg_prompt_of cfg q = Ok dg).
  { intros w sent dg Hcalls Hdg. rewrite process_item_eq in Hcalls. cbn [snd calls] in Hcalls.
    destruct (item_body_cases cfg q w) as (_ & _ & sent' & Hsent & Hcases).
    rewrite Hsent in Hcalls. apply app_inv_head in Hcalls as ->.
    destruct Hcases as [(e & _ & _ & [-> | (rg & _ & [-> | (dg' & Hdg' & ->)])]) | Hok];
      try discriminate.
    - now injection Hdg as <-.
    - destruct Hok as (rg & dg' & r & d & wa & wb & ex & res & _ & _ & Hdg' & -> & _).
      now injection Hdg as <-. }
  intros Hc1 Hc2 Hd1 Hd2.
  pose proof (Hone _ _ _ Hc1 Hd1) as H1. pose proof (Hone _ _ _ Hc2 Hd2) as H2.
  split; [exact H1 | congruence].
Qed.


Lemma build_result_fields (q extracted result : json) :
  build_result q extracted = Ok result ->
  exists question answer d1 d2 d3,
    py_getitem q (str "question") = Ok question
    /\ py_getitem q (str "correct_answer") = Ok answer
    /\ py_getitem extracted (str "distractor1") = Ok d1
    /\ py_getitem extracted (str "distractor2") = Ok d2
    /\ py_getitem extracted (str "distractor3") = Ok d3
    /\ result = JObj [(str "question", question); (str "correct_answer", answer);
                      (str "distractor1", d1); (str "distractor2", d2);
                      (str "distractor3", d3)].
Proof.
  unfold build_result, mbind, Result_bind.
  destruct (py_getitem q (str "question")) as [question|]; [|discriminate].
  destruct (py_getitem q (str "correct_answer")) as [answer|]; [|discriminate].
  destruct (py_getitem extracted (str "distractor1")) as [d1|]; [|discriminate].
  destruct (py_getitem extracted (str "distractor2")) as [d2|]; [|discriminate].
  destruct (py_getitem extracted (str "distractor3")) as [d3|]; [|discriminate].
  intros [= <-]. exists question, answer, d1, d2, d3. easy.
Qed.

(** C7. The record a turn appends has exactly the five fields [question],
    [correct_answer], [distractor1], [distractor2], [distractor3], in that
    order: the first two are the values of the question record, the other
    three the values of the extraction of the second model output. It has
    no [support] field. *)
Theorem persisted_record_fields (cfg : Config) (q : json) (w w' : World) :
  process_item cfg q w = (Ok tt, w') ->
  exists question answer d extracted d1 d2 d3 result,
    py_getitem q (str "question") = Ok question
    /\ py_getitem q (str "correct_answer") = Ok answer
    /\ format_distractor_output d = Ok extracted
    /\ py_getitem extracted (str "distractor1") = Ok d1
    /\ py_getitem extracted (str "distractor2") = Ok d2
    /\ py_getitem extracted (str "distractor3") = Ok d3
    /\ result = JObj [(str "question", question); (str "correct_answer", answer);
                      (str "distractor1", d1); (str "distractor2", d2);
                      (str "distractor3", d3)]
    /\ py_getitem result (str "support") = Raise (KeyError (str "support"))
    /\ append_to_output_file (output_file cfg) result (files w) = (Ok tt, files w').
Proof.
  rewrite process_item_eq. intros [= Hr <-]. cbn [files].
  destruct (item_body_cases cfg q w) as (_ & _ & sent & _ & [(e & He & _) | Hok]);
    [congruence|].
  destruct Hok as (rg & dg & r & d & wa & wb & ex & res & _ & _ & _ & _ & _ & _ & _
                   & Hex & Hres & Happ).
  apply build_result_fields in Hres
    as (question & answer & d1 & d2 & d3 & Hq & Ha & H1 & H2 & H3 & ->).
  exists question, answer, d, ex, d1, d2, d3. eexists.
  repeat split; try eassumption; reflexivity.
Qed.

(** The loop moves the counter by the number of turns it runs; when it
    ends normally it has run one turn for every item of the generator. *)
Lemma for_each_pbar (cfg : Config) (g : gen json) (w : World) :
  pbar_total (snd (for_each g (process_item cfg) w)) = pbar_total w
  /\ exists turns,
      pbar_n (snd (for_each g (process_item cfg) w)) = (pbar_n w + turns)%nat
      /\ (turns <= length (gen_items g))%nat
      /\ (fst (for_each g (process_item cfg) w) = Ok tt -> gen_count g = Ok turns).
Proof.
  revert w. induction g as [|q g IH|e]; intros w.
  - split; [reflexivity|]. exists 0%nat. cbn. repeat split; [lia | lia].
  - cbn [for_each]. rewrite bind_run.
    destruct (process_item_pbar cfg q w) as [Hn Ht].
    destruct (process_item cfg q w) as [[[]|e] w1]; cbn [fst snd] in *.
    + destruct (IH w1) as (Ht' & turns & Hn' & Hle & Hcount).
      split; [congruence|]. exists (S turns). cbn [gen_items gen_count length].
      repeat split; [lia | lia |].
      intros Hok. now rewrite (Hcount Hok).
    + split; [exact Ht|]. exists 1%nat. cbn [gen_items length].
      repeat split; [lia | lia | discriminate].
  - split; [reflexivity|]. exists 0%nat. cbn. repeat split; [lia | lia | discriminate].
Qed.

Lemma gen_count_items {A} (g : gen A) (n : nat) :
  gen_count g = Ok n -> n = length (gen_items g).
Proof.
  revert n. induction g as [|a g IH|e]; intros n Hn; cbn in *.
  - now injection Hn as <-.
  - destruct (gen_count g) as [m|]; [|discriminate]. injection Hn as <-.
    now rewrite (IH m eq_refl).
  - discriminate.
Qed.

(** C4. Every turn of the loop moves the progress counter by exactly one,
    whether it ends normally or raises; after a run that ends normally the
    counter equals the total the pre-scan counted, the number of items of
    the dataset. *)
Theorem progress_counts_every_item (cfg : Config) (w w' : World) :
  process_test_data cfg w = (Ok tt, w') ->
  (forall q w0, pbar_n (snd (process_item cfg q w0)) = S (pbar_n w0))
  /\ pbar_n w' = pbar_total w'
  /\ gen_count (read_test_data_iter (files w) (test_file cfg)) = Ok (pbar_total w')
  /\ pbar_n w' = length (gen_items (read_test_data_iter (files w) (test_file cfg))).
Proof.
  intros Hrun. split; [intros q w0; apply process_item_pbar|].
  unfold process_test_data, current_files in Hrun.
  rewrite bind_run in Hrun. cbn beta iota in Hrun.
  rewrite bind_lift in Hrun.
  destruct (gen_count (read_test_data_iter (files w) (test_file cfg))) as [total|e] eqn:Hcount;
    [|discriminate].
  rewrite bind_run in Hrun. unfold tqdm in Hrun. cbn beta iota in Hrun.
  rewrite bind_run in Hrun. cbn beta iota in Hrun. cbn [files] in Hrun.
  set (w0 := mkWorld _ (files w) 0 total (backend w) (calls w)) in *.
  destruct (for_each_pbar cfg (read_test_data_iter (files w) (test_file cfg)) w0)
    as (Ht & turns & Hn & _ & Hturns).
  rewrite Hrun in Ht, Hn, Hturns. cbn [fst snd pbar_n pbar_total] in *.
  specialize (Hturns eq_refl). rewrite Hcount in Hturns. injection Hturns as <-.
  subst w0. cbn [pbar_n pbar_total] in *.
  rewrite Ht, Hn. repeat split; try reflexivity.
  now rewrite <- (gen_count_items _ _ Hcount).
Qed.

End Driver.

(** * The dataset, the extraction and the output path *)

Lemma yield_records_entries (items : list json) :
  Forall has_question_fields items ->
  gen_count (yield_records items) = Ok (length items)
  /\ Forall2 record_of_entry items (gen_items (yield_records items)).
Proof.
  induction 1 as [|item items (q & a & s & Hq & Ha & Hs) _ [IHc IHf]].
  - split; [reflexivity | constructor].
  - cbn [yield_records]. rewrite Hq, Ha, Hs. cbn [gen_count gen_items length].
    rewrite IHc. split; [reflexivity|].
    constructor; [|exact IHf]. exists q, a, s. easy.
Qed.

(** C8. For a dataset file that holds a JSON array of objects with the
    fields [question], [correct_answer] and [support], the pre-scan counts
    the length of the array, and the generator yields, entry by entry, one
    record with exactly these three fields of the entry. *)
Theorem dataset_entries_become_records
    (fs : gmap (list N) (list N)) (path s : list N) (items : list json) :
  fs !! path = Some s ->
  json_loads s = Ok (JArr items) ->
  Forall has_question_fields items ->
  gen_count (read_test_data_iter fs path) = Ok (length items)
  /\ Forall2 record_of_entry items (gen_items (read_test_data_iter fs path)).
Proof.
  intros Hfile Hload Hitems. unfold read_test_data_iter.
  rewrite Hfile, Hload. cbn [py_iter]. now apply yield_records_entries.
Qed.

(** C9. From a raw model output in which the scan finds exactly two
    enumerated candidates, the extraction returns, without raising, the two
    strings in the first two fields and the empty string in the third. *)
Theorem two_candidates_leave_third_empty (raw a b : list N) :
  distractor_candidates raw = [a; b] ->
  extractDistractors raw
  = Ok (JObj [(str "distractor1", JStr a); (str "distractor2", JStr b);
              (str "distractor3", JStr [])]).
Proof. intros Hfound. unfold extractDistractors. now rewrite Hfound. Qed.

(** C10. The output path is the base name, a hyphen, the model
    identifier, a hyphen, the prompt style and the suffix [.json]. *)
Theorem output_path_pattern (base : list N) (m : model_choice) (p : prompt_choice) :
  output_file_path base m p
  = base ++ str "-" ++ model_name m ++ str "-" ++ prompt_name p ++ str ".json".
Proof.
  unfold output_file_path, fstring. cbn [map concat]. now rewrite app_nil_r.
Qed.

(** * Runs on concrete inputs *)

Lemma append_round_trip_witness :
  exists fs1 fs2 : gmap (list N) (list N),
    append_all (H := literal_format) out_json [record_one] ∅ = (Ok tt, fs1)
    /\ append_to_output_file (H := literal_format) out_json record_two fs1 = (Ok tt, fs2)
    /\ json_loads <$> (fs2 !! out_json) = Some (Ok (JArr ([record_one] ++ [record_two])))
    /\ append_all (H := literal_format) out_json ([record_one] ++ [record_two]) ∅
       = (Ok tt, fs2).
Proof.
  apply (append_round_trip (H := literal_format) out_json [record_one] record_two ∅);
    reflexivity.
Defined.



Lemma distractor_prompt_ignores_rationale_witness :
  dg_prompt_of (H := canned) example_config question_one
  = Ok (str "dg-rule: Why is sky blue?")
  /\ str "dg-rule: Why is sky blue?" = str "dg-rule: Why is sky blue?".
Proof.
  apply (distractor_prompt_ignores_rationale (H := literal_format) (H0 := canned)
           example_config question_one (example_world 4) (example_world 9)
           [str "rg-rule: Why is sky blue?"; str "dg-rule: Why is sky blue?"]
           [str "rg-rule: Why is sky blue?"; str "dg-rule: Why is sky blue?"]);
    vm_compute; reflexivity.
Defined.

Lemma progress_counts_every_item_witness :
  let w' := snd (process_test_data (H := literal_format) (H0 := canned)
                   example_config (example_world 4)) in
  (forall q w0, pbar_n (snd (process_item (H := literal_format) (H0 := canned)
                               example_config q w0)) = S (pbar_n w0))
  /\ pbar_n w' = pbar_total w'
  /\ gen_count (read_test_data_iter (files (example_world 4)) (test_file example_config))
     = Ok (pbar_total w')
  /\ pbar_n w'
     = length (gen_items (read_test_data_iter (files (example_world 4))
                                              (test_file example_config))).
Proof.
  apply (progress_counts_every_item (H := literal_format) (H0 := canned)
           example_config (example_world 4)).
  vm_compute. reflexivity.
Defined.

Lemma failed_item_appends_nothing_witness :
  files (snd (process_item (H := literal_format) (H0 := canned)
                example_config question_one (example_world 1)))
  = files (example_world 1).
Proof.
  apply (failed_item_appends_nothing (H := literal_format) (H0 := canned)
           example_config question_one (example_world 1) _
           (OtherError (str "backend down"))).
  vm_compute. reflexivity.
Defined.

Lemma persisted_record_fields_witness :
  exists question answer d extracted d1 d2 d3 result,
    py_getitem question_one (str "question") = Ok question
    /\ py_getitem question_one (str "correct_answer") = Ok answer
    /\ format_distractor_output (Collaborators := canned) d = Ok extracted
    /\ py_getitem extracted (str "distractor1") = Ok d1
    /\ py_getitem extracted (str "distractor2") = Ok d2
    /\ py_getitem extracted (str "distractor3") = Ok d3
    /\ result = JObj [(str "question", question); (str "correct_answer", answer);
                      (str "distractor1", d1); (str "distractor2", d2);
                      (str "distractor3", d3)]
    /\ py_getitem result (str "support") = Raise (KeyError (str "support"))
    /\ append_to_output_file (H := literal_format) (output_file example_config) result
                             (files (example_world 2))
       = (Ok tt, files (snd (process_item (H := literal_format) (H0 := canned)
                               example_config question_one (example_world 2)))).
Proof.
  apply (persisted_record_fields (H := literal_format) (H0 := canned)
           example_config question_one (example_world 2)).
  vm_compute. reflexivity.
Defined.

Lemma dataset_entries_become_records_witness :
  gen_count (read_test_data_iter {[test_json := dataset_text]} test_json)
  = Ok (length [question_one; question_two])
  /\ Forall2 record_of_entry [question_one; question_two]
             (gen_items (read_test_data_iter {[test_json := dataset_text]} test_json)).
Proof.
  apply (dataset_entries_become_records {[test_json := dataset_text]} test_json dataset_text
           [question_one; question_two]).
  - reflexivity.
  - vm_compute. reflexivity.
  - repeat constructor; eexists _, _, _; repeat split; reflexivity.
Defined.

Lemma two_candidates_leave_third_empty_witness :
  extractDistractors (canned_answer 3)
  = Ok (JObj [(str "distractor1", JStr (str "Mie scattering"));
              (str "distractor2", JStr (str "Ozone layer 3"));
              (str "distractor3", JStr [])]).
Proof.
  apply (two_candidates_leave_third_empty (canned_answer 3)
           (str "Mie scattering") (str "Ozone layer 3")).
  vm_compute. reflexivity.
Defined.

(** A whole run on the two questions: both turns end normally, the bar
    shows 2 of 2, and the output file parses as the two records. *)
Example run_to_the_end :
  let run := process_test_data (H := literal_format) (H0 := canned)
               example_config (example_world 4) in
  fst run = Ok tt
  /\ (pbar_n (snd run), pbar_total (snd run)) = (2%nat, 2%nat)
  /\ json_loads <$> (files (snd run) !! out_json)
     = Some (Ok (JArr [JObj [(str "question", JStr (str "Why is sky blue?"));
                            (str "correct_answer", JStr (str "Rayleigh scattering"));
                            (str "distractor1", JStr (str "Mie scattering"));
                            (str "distractor2", JStr (str "Ozone layer 2"));
                            (str "distractor3", JStr [])];
                      JObj [(str "question", JStr (str "What is 2 + 2?"));
                            (str "correct_answer", JStr (str "4"));
                            (str "distractor1", JStr (str "Mie scattering"));
                            (str "distractor2", JStr (str "Ozone layer 0"));
                            (str "distractor3", JStr [])]])).
Proof. vm_compute. repeat split; reflexivity. Qed.

(** A run in which the model fails on its fourth call: the exception
    leaves the loop, the second turn has still moved the bar, and the file
    holds the record of the first turn only. *)
Example run_cut_short :
  let run := process_test_data (H := literal_format) (H0 := canned)
               example_config (example_world 3) in
  fst run = Raise (OtherError (str "backend down"))
  /\ (pbar_n (snd run), pbar_total (snd run)) = (2%nat, 2%nat)
  /\ length (calls (snd run)) = 4%nat
  /\ json_loads <$> (files (snd run) !! out_json)
     = Some (Ok (JArr [JObj [(str "question", JStr (str "Why is sky blue?"));
                            (str "correct_answer", JStr (str "Rayleigh scattering"));
                            (str "distractor1", JStr (str "Mie scattering"));
                            (str "distractor2", JStr (str "Ozone layer 1"));
                            (str "distractor3", JStr [])]])).
Proof. vm_compute. repeat split; reflexivity. Qed.

(** An output path. *)
Example output_path_example :
  output_file_path (str "./output/out") plus rule = str "./output/out-plus-rule.json".
Proof. reflexivity. Qed.

(** * Further properties of the result store *)

Lemma skip_ws_all_blank s : skip_ws s = [] <-> forallb is_ws s = true.
Proof.
  induction s as [|c s IH]; [easy|]. simpl.
  destruct (is_ws c); [exact IH | easy].
Qed.

Lemma blank_drop n s : blank s = true -> blank (drop n s) = true.
Proof.
  unfold blank. intros Hs.
  assert (Hall : forallb is_ws s = true).
  { apply skip_ws_all_blank. now destruct (skip_ws s). }
  assert (Hdrop : forallb is_ws (drop n s) = true).
  { rewrite forallb_forall in *. intros c Hc. apply Hall.
    apply list_elem_of_In. apply list_elem_of_In in Hc.
    apply (subseteq_drop n s). exact Hc. }
  apply skip_ws_all_blank in Hdrop. now rewrite Hdrop.
Qed.

Lemma blank_does_not_load s : blank s = true -> json_loads s = Raise JSONDecodeError.
Proof.
  unfold blank, json_loads. intros Hs.
  destruct (skip_ws s) eqn:Hws; [|discriminate].
  destruct (starts_with_bom s); [reflexivity|]. reflexivity.
Qed.

Section StoreMore.
Context `{FloatFormat}.

(** An encoded array is read back whatever follows its closing bracket. *)
Lemma scan_once_array_then items level rest fuel :
  forallb json_ok items = true ->
  (json_size (JArr items) <= fuel)%nat ->
  scan_once fuel (iterencode level (JArr items) ++ rest) = Some (JArr items, rest).
Proof.
  intros Hok Hfuel. destruct fuel as [|fuel]; [simpl in Hfuel; lia|].
  destruct items as [|x items]; [reflexivity|].
  cbn [json_size] in Hfuel.
  cbn [iterencode]. rewrite <- app_comm_cons, <- !app_assoc.
  assert (Hstart :
    starts_value
      (join (COMMA :: newline_indent (S level))
            (map (iterencode (S level)) (x :: items))
         ++ newline_indent level ++ [RBRACKET] ++ rest) = true).
  { apply starts_value_app, join_starts. simpl. apply iterencode_starts.
    simpl in Hok. now apply andb_true_iff in Hok as [Hx _]. }
  erewrite scan_once_array;
    [| rewrite skip_ws_newline_indent; apply skip_ws_starts, Hstart | exact Hstart].
  cbn [app]. rewrite array_items_encoded; try easy; [|lia].
  apply Forall_forall. intros v _. apply iterencode_reads_back.
Qed.

(** The text of an array with something after it loads exactly when that
    something is blank. *)
Lemma json_loads_array_then items tail :
  forallb json_ok items = true ->
  json_loads (json_dumps (JArr items) ++ tail)
  = if blank tail then Ok (JArr items) else Raise JSONDecodeError.
Proof.
  intros Hok. unfold json_loads, json_dumps.
  pose proof (iterencode_starts (JArr items) 0 Hok) as Hstart.
  pose proof (starts_value_app _ tail Hstart) as Hstart'.
  rewrite starts_value_no_bom, skip_ws_starts by exact Hstart'.
  pose proof (scan_once_array_then items 0 tail _ Hok (le_n _)) as Hscan.
  rewrite (scan_once_enough _ _ _ _ Hscan) by lia.
  unfold blank. now destruct (skip_ws tail).
Qed.

Lemma append_spares_others
    (path other : list N) (data : json) (fs : gmap (list N) (list N)) :
  other <> path ->
  snd (append_to_output_file path data fs) !! other = fs !! other.
Proof.
  intros Hother. destruct (fs !! path) as [old|] eqn:Hfile.
  - rewrite (append_to_existing _ _ _ _ Hfile). cbn [snd].
    now rewrite lookup_insert_ne.
  - rewrite (append_to_absent _ _ _ Hfile). cbn [snd].
    now rewrite lookup_insert_ne.
Qed.

Lemma append_all_spares_others
    (path other : list N) (records : list json) (fs : gmap (list N) (list N)) :
  other <> path ->
  snd (append_all path records fs) !! other = fs !! other.
Proof.
  intros Hother. revert fs. induction records as [|r records IH]; intros fs; [reflexivity|].
  cbn [append_all]. pose proof (append_returns path r fs) as Hret.
  pose proof (append_spares_others path other r fs Hother) as Hsp.
  destruct (append_to_output_file path r fs) as [[[]|e] fs1]; cbn [fst snd] in *;
    [|discriminate].
  now rewrite IH.
Qed.




(** X4. On an output file that exists but is blank -- empty, or white
    space only, of any length -- the call leaves a file that parses as
    exactly the new record. *)
Theorem append_to_blank_file
    (path old : list N) (data : json) (fs : gmap (list N) (list N)) :
  fs !! path = Some old ->
  blank old = true ->
  json_ok data = true ->
  json_loads <$> (snd (append_to_output_file path data fs) !! path)
  = Some (Ok (JArr [data])).
Proof.
  intros Hfile Hblank Hok. rewrite (append_to_existing _ _ _ _ Hfile). cbn [snd]. cbv zeta.
  rewrite lookup_insert_eq. cbn [fmap option_fmap option_map].
  unfold existing_data. rewrite (blank_does_not_load _ Hblank). cbn [app].
  rewrite json_loads_array_then by (cbn; now rewrite Hok).
  now rewrite blank_drop.
Qed.


(** X6. What [json.dump] writes to a fresh file, [json.load] reads back
    from its start. *)
Theorem dump_then_load (v : json) :
  json_ok v = true ->
  fst (json_load (f_seek 0 (json_dump v (mkFile [] 0)))) = Ok v.
Proof.
  intros Hok. unfold json_load, f_read, f_seek, json_dump, f_write.
  cbn [pos content fst]. rewrite drop_0, take_nil, drop_nil, app_nil_r. cbn [app].
  now apply json_loads_dumps.
Qed.

(** X7. A file the store builds from nothing holds ASCII only, one byte
    per character: after any run of appends of records without floats
    from an absent file, every character of the file is below 128. *)
Theorem store_writes_ascii
    (path : list N) (records : list json) (fs : gmap (list N) (list N)) :
  fs !! path = None ->
  forallb json_ok records = true ->
  records <> [] ->
  exists s, snd (append_all path records fs) !! path = Some s
            /\ Forall (fun c => c < 128) s.
Proof.
  intros Hnone Hok Hne. rewrite (append_all_from_absent _ _ _ Hnone Hok).
  destruct records as [|r records]; [contradiction|]. cbn [snd].
  exists (json_dumps (JArr (r :: records))). split; [apply lookup_insert_eq|].
  now apply iterencode_ascii.
Qed.

(** On a file that holds the encoding of an array, a run of appends
    leaves the encoding of the array extended by the records, in order. *)
Lemma append_all_on_written
    (path : list N) (done todo : list json) (fs : gmap (list N) (list N)) :
  fs !! path = Some (json_dumps (JArr done)) ->
  forallb json_ok (done ++ todo) = true ->
  append_all path todo fs = (Ok tt, <[path := json_dumps (JArr (done ++ todo))]> fs).
Proof.
  revert done fs. induction todo as [|r todo IH]; intros done fs Hfile Hall.
  - rewrite app_nil_r. cbn [append_all]. now rewrite insert_id.
  - cbn [append_all]. rewrite forallb_app in Hall.
    apply andb_true_iff in Hall as [Hdone Htodo].
    rewrite (append_to_written _ _ _ _ Hfile Hdone).
    rewrite (IH (done ++ [r])).
    + rewrite insert_insert_eq. now rewrite <- app_assoc.
    + apply lookup_insert_eq.
    + rewrite <- app_assoc. rewrite forallb_app. now rewrite Hdone.
Qed.

(** X16. The store picks up a file it wrote earlier: appending further
    records to a file that holds the array the store wrote for the records
    [done] leaves a file that parses as [done] followed by the new
    records, in order. *)
Theorem append_continues_written_file
    (path : list N) (done todo : list json) (fs : gmap (list N) (list N)) :
  fs !! path = Some (json_dumps (JArr done)) ->
  forallb json_ok (done ++ todo) = true ->
  fst (append_all path todo fs) = Ok tt
  /\ json_loads <$> (snd (append_all path todo fs) !! path)
     = Some (Ok (JArr (done ++ todo))).
Proof.
  intros Hfile Hall. rewrite (append_all_on_written _ _ _ _ Hfile Hall). cbn [fst snd].
  split; [reflexivity|]. rewrite lookup_insert_eq. cbn [fmap option_fmap option_map].
  now rewrite json_loads_dumps.
Qed.

End StoreMore.

(** * Further properties of the reader and of the batch driver *)

(** The generator counts to the end only over entries that all have the
    three fields. *)
Lemma yield_records_count_ok (items : list json) (n : nat) :
  gen_count (yield_records items) = Ok n -> Forall has_question_fields items.
Proof.
  revert n. induction items as [|item items IH]; intros n Hn; [constructor|].
  cbn [yield_records] in Hn.
  destruct (py_getitem item (str "question")) as [q|] eqn:Hq; [|discriminate].
  destruct (py_getitem item (str "correct_answer")) as [a|] eqn:Ha; [|discriminate].
  destruct (py_getitem item (str "support")) as [s|] eqn:Hs; [|discriminate].
  cbn [gen_count] in Hn.
  destruct (gen_count (yield_records items)) as [m|] eqn:Hm; [|discriminate].
  constructor; [exists q, a, s; easy | now apply (IH m)].
Qed.

(** X8. The generator stops at the first entry that lacks a field or is
    no dict: it has yielded the records of the entries before it, and it
    raises [KeyError] with the first field the entry lacks, in the order
    [question], [correct_answer], [support] -- or [TypeError] when the
    entry is no dict. *)
Theorem bad_entry_stops_generator
    (fs : gmap (list N) (list N)) (path s : list N) (good : list json) (bad : json)
    (rest : list json) :
  fs !! path = Some s ->
  json_loads s = Ok (JArr (good ++ bad :: rest)) ->
  Forall has_question_fields good ->
  ~ has_question_fields bad ->
  exists e,
    gen_count (read_test_data_iter fs path) = Raise e
    /\ Forall2 record_of_entry good (gen_items (read_test_data_iter fs path))
    /\ match bad with
       | JObj d =>
           exists before k after,
             [str "question"; str "correct_answer"; str "support"] = before ++ k :: after
             /\ Forall (fun k' => is_Some (dict_get k' d)) before
             /\ dict_get k d = None
             /\ e = KeyError k
       | _ => e = TypeError
       end.
Proof.
  intros Hfile Hload Hgood Hbad. unfold read_test_data_iter.
  rewrite Hfile, Hload. cbn [py_iter]. clear Hload.
  induction Hgood as [|item good (q & a & sup & Hq & Ha & Hs) _ IH].
  - cbn [app yield_records].
    destruct bad as [| b | z | l | t | items | d];
      try (exists TypeError; repeat split; constructor).
    cbn [py_getitem] in *.
    destruct (dict_get (str "question") d) as [q|] eqn:Hq.
    2: { exists (KeyError (str "question")). repeat split; [constructor|].
         exists [], (str "question"), [str "correct_answer"; str "support"].
         repeat split; [constructor | exact Hq]. }
    destruct (dict_get (str "correct_answer") d) as [a|] eqn:Ha.
    2: { exists (KeyError (str "correct_answer")). repeat split; [constructor|].
         exists [str "question"], (str "correct_answer"), [str "support"].
         repeat split; [|exact Ha]. repeat constructor. rewrite Hq. eauto. }
    destruct (dict_get (str "support") d) as [sup|] eqn:Hs.
    2: { exists (KeyError (str "support")). repeat split; [constructor|].
         exists [str "question"; str "correct_answer"], (str "support"), [].
         repeat split; [|exact Hs]. repeat constructor; [rewrite Hq | rewrite Ha]; eauto. }
    exfalso. apply Hbad. exists q, a, sup. cbn [py_getitem]. now rewrite Hq, Ha, Hs.
  - destruct IH as (e & Hcount & Hitems & He). exists e.
    cbn [app yield_records]. rewrite Hq, Ha, Hs. cbn [gen_count gen_items].
    rewrite Hcount. repeat split; [|exact He].
    constructor; [exists q, a, sup; easy | exact Hitems].
Qed.

(** X9. A dataset file that holds a JSON value other than an array is
    rejected with [TypeError] when the first item is asked for -- except
    an empty object or an empty string, which count as a dataset of no
    items. *)
Theorem non_list_dataset
    (fs : gmap (list N) (list N)) (path s : list N) (v : json) :
  fs !! path = Some s ->
  json_loads s = Ok v ->
  (forall items, v <> JArr items) ->
  gen_count (read_test_data_iter fs path)
  = match v with
    | JObj [] | JStr [] => Ok 0%nat
    | _ => Raise TypeError
    end.
Proof.
  intros Hfile Hload Hnot. unfold read_test_data_iter. rewrite Hfile, Hload.
  destruct v as [| b | z | l | t | items | d]; try reflexivity.
  - now destruct t.
  - now destruct (Hnot items).
  - now destruct d.
Qed.

Section DriverMore.
Context `{FloatFormat} `{Collaborators}.

(** What one turn of the loop leaves behind. *)
Lemma process_item_outcome (cfg : Config) (q : json) (w : World) :
  pbar_n (snd (process_item cfg q w)) = S (pbar_n w)
  /\ pbar_total (snd (process_item cfg q w)) = pbar_total w
  /\ match fst (process_item cfg q w) with
     | Ok _ =>
         exists result prompts,
           result_of_question q result
           /\ prompts_of_question cfg q prompts
           /\ append_to_output_file (output_file cfg) result (files w)
              = (Ok tt, files (snd (process_item cfg q w)))
           /\ calls (snd (process_item cfg q w)) = calls w ++ [fst prompts; snd prompts]
     | Raise _ => files (snd (process_item cfg q w)) = files w
     end.
Proof.
  destruct (process_item_pbar cfg q w) as [Hn Ht]. split; [exact Hn|]. split; [exact Ht|].
  rewrite process_item_eq. cbn [fst snd files calls].
  destruct (item_body_cases cfg q w) as (_ & _ & sent & Hsent & [(e & He & Hfiles & _) | Hok]).
  - now rewrite He.
  - destruct Hok as (rg & dg & r & d & w1 & w2 & ex & res & Hfst & Hrg & Hdg & -> & _ & _ & _
                     & _ & Hres & Happ).
    rewrite Hfst. exists res, (rg, dg). repeat split; try assumption.
    apply build_result_fields in Hres as (qu & an & d1 & d2 & d3 & Hq & Ha & _ & _ & _ & ->).
    exists qu, an, d1, d2, d3. easy.
Qed.

(** What the loop leaves behind, however it ends: the records of the turns
    that ended normally are appended in order, two prompts were sent for
    each of them, and the bar has moved once for each of them and once
    more for a turn that raised. *)
Lemma for_each_trace (cfg : Config) (g : gen json) (w : World) :
  exists done results prompts,
    Forall2 result_of_question done results
    /\ Forall2 (prompts_of_question cfg) done prompts
    /\ append_all (output_file cfg) results (files w)
       = (Ok tt, files (snd (for_each g (process_item cfg) w)))
    /\ pbar_total (snd (for_each g (process_item cfg) w)) = pbar_total w
    /\ match fst (for_each g (process_item cfg) w) with
       | Ok _ =>
           done = gen_items g
           /\ gen_count g = Ok (length done)
           /\ pbar_n (snd (for_each g (process_item cfg) w)) = (pbar_n w + length done)%nat
           /\ calls (snd (for_each g (process_item cfg) w))
              = calls w ++ flat_map (fun p => [fst p; snd p]) prompts
       | Raise e =>
           (exists q rest,
              gen_items g = done ++ q :: rest
              /\ pbar_n (snd (for_each g (process_item cfg) w))
                 = (pbar_n w + S (length done))%nat)
           \/ (gen_count g = Raise e
               /\ pbar_n (snd (for_each g (process_item cfg) w))
                  = (pbar_n w + length done)%nat)
       end.
Proof.
  revert w. induction g as [|q g IH|e]; intros w.
  - exists [], [], []. cbn. rewrite app_nil_r. repeat split; try constructor. lia.
  - cbn [for_each]. rewrite bind_run.
    destruct (process_item_outcome cfg q w) as (Hn & Ht & Hout).
    destruct (process_item cfg q w) as [[[]|e] w1]; cbn [fst snd] in *.
    + destruct Hout as (result & pp & Hres & Hpp & Happ & Hcalls).
      destruct (IH w1) as (done & results & prompts & Hdone & Hprompts & Hall & Htot & Hend).
      exists (q :: done), (result :: results), (pp :: prompts).
      split; [now constructor|]. split; [now constructor|].
      split; [cbn [append_all]; now rewrite Happ|].
      split; [congruence|].
      destruct (for_each g (process_item cfg) w1) as [[[]|e] w2]; cbn [fst snd] in *.
      * destruct Hend as (-> & Hcount & Hbar & Hc). cbn [gen_items gen_count length flat_map].
        rewrite Hcount. repeat split; [lia|].
        rewrite Hc, Hcalls, <- app_assoc. reflexivity.
      * destruct Hend as [(q' & rest & Hitems & Hbar) | (Hcount & Hbar)].
        -- left. exists q', rest. cbn [gen_items length]. rewrite Hitems.
           split; [reflexivity | lia].
        -- right. cbn [gen_count length]. rewrite Hcount. split; [reflexivity | lia].
    + exists [], [], []. split; [constructor|]. split; [constructor|].
      split; [cbn [append_all]; now rewrite Hout|]. split; [exact Ht|].
      left. exists q, (gen_items g). cbn [gen_items length app]. split; [reflexivity | lia].
  - exists [], [], []. cbn. split; [constructor|]. split; [constructor|].
    split; [reflexivity|]. split; [reflexivity|].
    right. split; [reflexivity | lia].
Qed.

(** The run after the pre-scan: the bar is reset, then the loop runs on
    the same file system. *)
Lemma process_test_data_after_prescan (cfg : Config) (w : World) (total : nat) :
  gen_count (read_test_data_iter (files w) (test_file cfg)) = Ok total ->
  process_test_data cfg w
  = for_each (read_test_data_iter (files w) (test_file cfg)) (process_item cfg)
             (mkWorld _ (files w) 0 total (backend w) (calls w)).
Proof.
  intros Hcount. unfold process_test_data, current_files.
  rewrite bind_run. cbn beta iota. rewrite bind_lift, Hcount.
  rewrite bind_run. unfold tqdm. cbn beta iota. rewrite bind_run. reflexivity.
Qed.

Lemma process_test_data_prescan_raises (cfg : Config) (w : World) (e : exn) :
  gen_count (read_test_data_iter (files w) (test_file cfg)) = Raise e ->
  process_test_data cfg w = (Raise e, w).
Proof.
  intros Hcount. unfold process_test_data, current_files.
  rewrite bind_run. cbn beta iota. now rewrite bind_lift, Hcount.
Qed.

(** X10. A dataset file that is missing or is no JSON ends the run in the
    pre-scan, with [FileNotFoundError] or [JSONDecodeError]: a corrupt
    dataset is not tolerated as a corrupt output file is. Nothing has
    happened by then: no model call, no file written, the bar not set. *)
Theorem unreadable_dataset_aborts_run (cfg : Config) (w : World) :
  files w !! test_file cfg = None
  \/ (exists s, files w !! test_file cfg = Some s /\ json_loads s = Raise JSONDecodeError) ->
  process_test_data cfg w
  = (Raise (match files w !! test_file cfg with
            | None => FileNotFoundError
            | Some _ => JSONDecodeError
            end), w).
Proof.
  intros [Hnone | (s & Hfile & Hload)]; apply process_test_data_prescan_raises;
    unfold read_test_data_iter.
  - now rewrite Hnone.
  - now rewrite Hfile, Hload.
Qed.

(** X11. One entry without its three fields, anywhere in the dataset --
    the last one included -- ends the run in the pre-scan: the run raises
    and the world is as before, no model call made, no record written. *)
Theorem malformed_entry_aborts_before_any_call
    (cfg : Config) (w : World) (s : list N) (items : list json) :
  files w !! test_file cfg = Some s ->
  json_loads s = Ok (JArr items) ->
  ~ Forall has_question_fields items ->
  exists e, process_test_data cfg w = (Raise e, w).
Proof.
  intros Hfile Hload Hbad.
  destruct (gen_count (read_test_data_iter (files w) (test_file cfg))) as [n|e] eqn:Hcount.
  - exfalso. apply Hbad. unfold read_test_data_iter in Hcount.
    rewrite Hfile, Hload in Hcount. cbn [py_iter] in Hcount.
    now apply (yield_records_count_ok _ n).
  - exists e. now apply process_test_data_prescan_raises.
Qed.

(** X12. A run that ends normally has sent exactly two prompts per dataset
    item, in dataset order: for each item its rationale prompt, then its
    distractor prompt. *)
Theorem full_run_sends_two_prompts_per_item (cfg : Config) (w w' : World) :
  process_test_data cfg w = (Ok tt, w') ->
  exists prompts,
    Forall2 (prompts_of_question cfg)
            (gen_items (read_test_data_iter (files w) (test_file cfg))) prompts
    /\ calls w' = calls w ++ flat_map (fun p => [fst p; snd p]) prompts
    /\ length (calls w')
       = (length (calls w)
          + 2 * length (gen_items (read_test_data_iter (files w) (test_file cfg))))%nat.
Proof.
  intros Hrun.
  destruct (gen_count (read_test_data_iter (files w) (test_file cfg))) as [total|e] eqn:Hcount.
  2: { rewrite (process_test_data_prescan_raises _ _ _ Hcount) in Hrun. discriminate. }
  rewrite (process_test_data_after_prescan _ _ _ Hcount) in Hrun.
  destruct (for_each_trace cfg (read_test_data_iter (files w) (test_file cfg))
              (mkWorld _ (files w) 0 total (backend w) (calls w)))
    as (done & results & prompts & _ & Hprompts & _ & _ & Hend).
  rewrite Hrun in Hend. cbn [fst snd calls] in Hend.
  destruct Hend as (-> & _ & _ & Hcalls).
  exists prompts. split; [exact Hprompts|]. split; [exact Hcalls|].
  rewrite Hcalls, length_app. f_equal.
  apply Forall2_length in Hprompts. rewrite Hprompts.
  clear. induction prompts as [|p ps IH]; [reflexivity|]. cbn [flat_map length app]. lia.
Qed.

(** X13. A run that ends normally has appended one record per dataset
    item, in dataset order, each with the question and the correct answer
    of its item. When the output file was absent before the run and the
    records are ones [json] reads back, the file afterwards parses as
    exactly the array of these records -- and stays absent for an empty
    dataset. *)
Theorem full_run_writes_one_record_per_item (cfg : Config) (w w' : World) :
  process_test_data cfg w = (Ok tt, w') ->
  exists results,
    Forall2 result_of_question
            (gen_items (read_test_data_iter (files w) (test_file cfg))) results
    /\ append_all (output_file cfg) results (files w) = (Ok tt, files w')
    /\ (files w !! output_file cfg = None ->
        forallb json_ok results = true ->
        json_loads <$> (files w' !! output_file cfg)
        = match results with
          | [] => None
          | _ :: _ => Some (Ok (JArr results))
          end).
Proof.
  intros Hrun.
  destruct (gen_count (read_test_data_iter (files w) (test_file cfg))) as [total|e] eqn:Hcount.
  2: { rewrite (process_test_data_prescan_raises _ _ _ Hcount) in Hrun. discriminate. }
  rewrite (process_test_data_after_prescan _ _ _ Hcount) in Hrun.
  destruct (for_each_trace cfg (read_test_data_iter (files w) (test_file cfg))
              (mkWorld _ (files w) 0 total (backend w) (calls w)))
    as (done & results & prompts & Hdone & _ & Hall & _ & Hend).
  rewrite Hrun in Hend, Hall. cbn [fst snd files] in Hend, Hall.
  destruct Hend as (-> & _).
  exists results. split; [exact Hdone|]. split; [exact Hall|].
  intros Hnone Hok. rewrite (append_all_from_absent _ _ _ Hnone Hok) in Hall.
  injection Hall as <-. destruct results as [|r results].
  - now rewrite Hnone.
  - rewrite lookup_insert_eq. cbn [fmap option_fmap option_map].
    now rewrite json_loads_dumps.
Qed.

(** X14. A run that raises after the pre-scan has kept what it finished:
    the records of the items before the failing one are appended, in
    order, and nothing of the failing item. The bar counts the failing
    item too: it stands at the number of finished items plus one. *)
Theorem aborted_run_keeps_finished_records
    (cfg : Config) (w w' : World) (e : exn) (total : nat) :
  gen_count (read_test_data_iter (files w) (test_file cfg)) = Ok total ->
  process_test_data cfg w = (Raise e, w') ->
  exists done failing rest results,
    gen_items (read_test_data_iter (files w) (test_file cfg)) = done ++ failing :: rest
    /\ Forall2 result_of_question done results
    /\ append_all (output_file cfg) results (files w) = (Ok tt, files w')
    /\ pbar_n w' = S (length done)
    /\ pbar_total w' = total.
Proof.
  intros Hcount Hrun.
  rewrite (process_test_data_after_prescan _ _ _ Hcount) in Hrun.
  destruct (for_each_trace cfg (read_test_data_iter (files w) (test_file cfg))
              (mkWorld _ (files w) 0 total (backend w) (calls w)))
    as (done & results & prompts & Hdone & _ & Hall & Htot & Hend).
  rewrite Hrun in Hend, Hall, Htot. cbn [fst snd files pbar_n pbar_total] in *.
  destruct Hend as [(q & rest & Hitems & Hbar) | (Hraise & _)]; [|congruence].
  exists done, q, rest, results. repeat split; assumption.
Qed.

(** X15. Whatever its outcome, a run changes no file but the output file;
    in particular the dataset is as it was, unless it is the output
    file. *)
Theorem run_changes_only_output_file (cfg : Config) (w : World) (other : list N) :
  other <> output_file cfg ->
  files (snd (process_test_data cfg w)) !! other = files w !! other.
Proof.
  intros Hother.
  destruct (gen_count (read_test_data_iter (files w) (test_file cfg))) as [total|e] eqn:Hcount.
  2: { now rewrite (process_test_data_prescan_raises _ _ _ Hcount). }
  rewrite (process_test_data_after_prescan _ _ _ Hcount).
  destruct (for_each_trace cfg (read_test_data_iter (files w) (test_file cfg))
              (mkWorld _ (files w) 0 total (backend w) (calls w)))
    as (done & results & prompts & _ & _ & Hall & _).
  cbn [files] in Hall.
  rewrite <- (append_all_spares_others (output_file cfg) other results (files w) Hother).
  now rewrite Hall.
Qed.

Lemma item_body_prompt_raises (cfg : Config) (q : json) (w : World) (e : exn) :
  rg_prompt_of cfg q = Raise e -> item_body cfg q w = (Raise e, w).
Proof.
  unfold rg_prompt_of, item_body. rewrite bind_lift.
  destruct (py_getitem (prompt_config cfg) (str "rg")) as [t|e']; cbn [mbind Result_bind].
  - intros Hp. rewrite bind_lift. now rewrite Hp.
  - now intros [= ->].
Qed.

Lemma gen_items_cons {A} (g : gen A) (a : A) (rest : list A) :
  gen_items g = a :: rest -> exists g', g = GCons a g'.
Proof. destruct g as [|b g'|e]; try discriminate. intros [= -> _]. eauto. Qed.

(** X17. When the rationale prompt of the first item cannot be built -- the
    [rg] template is missing from the configuration, or the prompt builder
    raises -- the run ends at that item with that exception: no model call
    is made and no file is written, and the bar stands at 1. *)
Theorem first_prompt_failure_ends_run
    (cfg : Config) (w : World) (q : json) (rest : list json) (e : exn) (total : nat) :
  gen_count (read_test_data_iter (files w) (test_file cfg)) = Ok total ->
  gen_items (read_test_data_iter (files w) (test_file cfg)) = q :: rest ->
  rg_prompt_of cfg q = Raise e ->
  process_test_data cfg w
  = (Raise e, mkWorld _ (files w) 1 total (backend w) (calls w)).
Proof.
  intros Hcount Hitems Hprompt.
  rewrite (process_test_data_after_prescan _ _ _ Hcount).
  apply gen_items_cons in Hitems as [g' ->].
  cbn [for_each]. rewrite bind_run, process_item_eq.
  rewrite (item_body_prompt_raises _ _ _ _ Hprompt). reflexivity.
Qed.


End DriverMore.

(** X19. For one base name, the output paths of two runs coincide only
    when the runs have the same model and the same prompt style: runs
    with different choices never write to the same file. *)
Theorem output_paths_do_not_collide
    (base : list N) (m m' : model_choice) (p p' : prompt_choice) :
  output_file_path base m p = output_file_path base m' p' -> m = m' /\ p = p'.
Proof.
  unfold output_file_path, fstring. cbn [map concat]. intros Heq.
  apply app_inv_head in Heq.
  destruct m, m', p, p'; vm_compute in Heq; try discriminate; split; reflexivity.
Qed.

(** * The further properties on concrete inputs *)




Lemma append_to_blank_file_witness :
  json_loads <$> (snd (append_to_output_file (H := literal_format) out_json record_one
                         {[out_json := blank_text]}) !! out_json)
  = Some (Ok (JArr [record_one])).
Proof.
  apply (append_to_blank_file (H := literal_format) out_json blank_text record_one
           {[out_json := blank_text]}); reflexivity.
Defined.


Lemma dump_then_load_witness :
  fst (json_load (f_seek 0 (json_dump (H := literal_format) record_one (mkFile [] 0))))
  = Ok record_one.
Proof. apply (dump_then_load (H := literal_format) record_one). reflexivity. Defined.

Lemma store_writes_ascii_witness :
  exists s,
    snd (append_all (H := literal_format) out_json [record_one; record_two] ∅) !! out_json
    = Some s
    /\ Forall (fun c => c < 128) s.
Proof.
  apply (store_writes_ascii (H := literal_format) out_json [record_one; record_two] ∅).
  - reflexivity.
  - reflexivity.
  - discriminate.
Defined.

Lemma question_without_answer_lacks_field : ~ has_question_fields question_without_answer.
Proof. intros (q & a & s & _ & Ha & _). vm_compute in Ha. discriminate. Qed.

Lemma bad_entry_stops_generator_witness :
  exists e,
    gen_count (read_test_data_iter {[test_json := broken_dataset_text]} test_json) = Raise e
    /\ Forall2 record_of_entry [question_one]
         (gen_items (read_test_data_iter {[test_json := broken_dataset_text]} test_json))
    /\ exists before k after,
         [str "question"; str "correct_answer"; str "support"] = before ++ k :: after
         /\ Forall (fun k' => is_Some (dict_get k' fields_without_answer)) before
         /\ dict_get k fields_without_answer = None
         /\ e = KeyError k.
Proof.
  apply (bad_entry_stops_generator {[test_json := broken_dataset_text]} test_json
           broken_dataset_text [question_one] question_without_answer []).
  - reflexivity.
  - vm_compute. reflexivity.
  - repeat constructor. eexists _, _, _. repeat split; reflexivity.
  - exact question_without_answer_lacks_field.
Defined.

Lemma non_list_dataset_witness :
  gen_count (read_test_data_iter {[test_json := str "null"]} test_json) = Raise TypeError.
Proof.
  apply (non_list_dataset {[test_json := str "null"]} test_json (str "null") JNull).
  - reflexivity.
  - reflexivity.
  - discriminate.
Defined.

Lemma unreadable_dataset_aborts_run_witness :
  process_test_data (H := literal_format) (H0 := canned) example_config bare_world
  = (Raise (match files bare_world !! test_file example_config with
            | None => FileNotFoundError
            | Some _ => JSONDecodeError
            end), bare_world).
Proof.
  apply (unreadable_dataset_aborts_run (H := literal_format) (H0 := canned)
           example_config bare_world).
  left. reflexivity.
Defined.

Lemma malformed_entry_aborts_before_any_call_witness :
  exists e,
    process_test_data (H := literal_format) (H0 := canned) example_config broken_world
    = (Raise e, broken_world).
Proof.
  apply (malformed_entry_aborts_before_any_call (H := literal_format) (H0 := canned)
           example_config broken_world broken_dataset_text
           [question_one; question_without_answer]).
  - reflexivity.
  - vm_compute. reflexivity.
  - intros Hall. apply Forall_cons in Hall as [_ Hall].
    apply Forall_cons in Hall as [Hbad _].
    exact (question_without_answer_lacks_field Hbad).
Defined.

Lemma full_run_sends_two_prompts_per_item_witness :
  let w' := snd (process_test_data (H := literal_format) (H0 := canned)
                   example_config (example_world 4)) in
  exists prompts,
    Forall2 (prompts_of_question (H := canned) example_config)
            (gen_items (read_test_data_iter (files (example_world 4))
                                            (test_file example_config))) prompts
    /\ calls w' = calls (example_world 4) ++ flat_map (fun p => [fst p; snd p]) prompts
    /\ length (calls w')
       = (length (calls (example_world 4))
          + 2 * length (gen_items (read_test_data_iter (files (example_world 4))
                                                       (test_file example_config))))%nat.
Proof.
  apply (full_run_sends_two_prompts_per_item (H := literal_format) (H0 := canned)
           example_config (example_world 4)).
  vm_compute. reflexivity.
Defined.

Lemma full_run_writes_one_record_per_item_witness :
  let w' := snd (process_test_data (H := literal_format) (H0 := canned)
                   example_config (example_world 4)) in
  exists results,
    Forall2 result_of_question
            (gen_items (read_test_data_iter (files (example_world 4))
                                            (test_file example_config))) results
    /\ append_all (H := literal_format) (output_file example_config) results
                  (files (example_world 4)) = (Ok tt, files w')
    /\ (files (example_world 4) !! output_file example_config = None ->
        forallb json_ok results = true ->
        json_loads <$> (files w' !! output_file example_config)
        = match results with
          | [] => None
          | _ :: _ => Some (Ok (JArr results))
          end).
Proof.
  apply (full_run_writes_one_record_per_item (H := literal_format) (H0 := canned)
           example_config (example_world 4)).
  vm_compute. reflexivity.
Defined.

Lemma aborted_run_keeps_finished_records_witness :
  let w' := snd (process_test_data (H := literal_format) (H0 := canned)
                   example_config (example_world 3)) in
  exists done failing rest results,
    gen_items (read_test_data_iter (files (example_world 3)) (test_file example_config))
    = done ++ failing :: rest
    /\ Forall2 result_of_question done results
    /\ append_all (H := literal_format) (output_file example_config) results
                  (files (example_world 3)) = (Ok tt, files w')
    /\ pbar_n w' = S (length done)
    /\ pbar_total w' = 2%nat.
Proof.
  apply (aborted_run_keeps_finished_records (H := literal_format) (H0 := canned)
           example_config (example_world 3) _ (OtherError (str "backend down")) 2).
  - vm_compute. reflexivity.
  - vm_compute. reflexivity.
Defined.

Lemma run_changes_only_output_file_witness :
  files (snd (process_test_data (H := literal_format) (H0 := canned)
                example_config (example_world 4))) !! test_json
  = files (example_world 4) !! test_json.
Proof.
  apply (run_changes_only_output_file (H := literal_format) (H0 := canned)
           example_config (example_world 4) test_json).
  vm_compute. discriminate.
Defined.

Lemma append_continues_written_file_witness :
  fst (append_all (H := literal_format) out_json [record_two]
         {[out_json := json_dumps (H := literal_format) (JArr [record_one])]}) = Ok tt
  /\ json_loads <$> (snd (append_all (H := literal_format) out_json [record_two]
                            {[out_json := json_dumps (H := literal_format)
                                            (JArr [record_one])]}) !! out_json)
     = Some (Ok (JArr ([record_one] ++ [record_two]))).
Proof.
  apply (append_continues_written_file (H := literal_format) out_json
           [record_one] [record_two]
           {[out_json := json_dumps (H := literal_format) (JArr [record_one])]});
    reflexivity.
Defined.

Lemma first_prompt_failure_ends_run_witness :
  process_test_data (H := literal_format) (H0 := canned) config_without_rg (example_world 4)
  = (Raise (KeyError (str "rg")),
     mkWorld canned (files (example_world 4)) 1 2
             (backend (example_world 4)) (calls (example_world 4))).
Proof.
  apply (first_prompt_failure_ends_run (H := literal_format) (H0 := canned)
           config_without_rg (example_world 4) question_one
           [JObj [(str "question", JStr (str "What is 2 + 2?"));
                  (str "correct_answer", JStr (str "4"));
                  (str "support", JStr (str "Arithmetic"))]]);
    vm_compute; reflexivity.
Defined.


Lemma output_paths_do_not_collide_witness : plus = plus /\ rule = rule.
Proof.
  apply (output_paths_do_not_collide (str "./output/out") plus plus rule rule).
  reflexivity.
Defined.

(** Two runs one after the other leave four records for two questions. *)
Example two_runs_double_the_records :
  let w1 := snd (process_test_data (H := literal_format) (H0 := canned)
                   example_config (example_world 8)) in
  let w2 := snd (process_test_data (H := literal_format) (H0 := canned)
                   example_config w1) in
  match json_loads <$> (files w2 !! out_json) with
  | Some (Ok (JArr records)) => length records = 4%nat
  | _ => False
  end.
Proof. vm_compute. reflexivity. Qed.
